(** * Qt4 input hook and the 2to3 import hook of IPython: a shallow embedding

    Sources embedded here:
    - [IPython/lib/inputhookqt4.py]: [create_inputhook_qt4] with its two
      closures [inputhook_qt4] and [preprompthook_qt4];
    - [ipython3.py]: [Auto2to3SourceFileLoader._load_cached_2to3] and
      [Auto2to3FileFinder.predicated_path_hook].

    Python's control flow (early [return], [raise], [try]/[except]/[finally])
    is modelled by a state monad whose computations end in a [completion];
    the Qt toolkit and the terminal are an oracle answering every call made
    into them. *)

From stdpp Require Import gmap strings list fin_maps.
From Stdlib Require Import Ascii ZArith QArith.QArith_base Lia.

Close Scope Q_scope.
Close Scope Z_scope.
Open Scope string_scope.
Open Scope list_scope.

(** ** Exceptions, completions, events *)

Inductive exn : Type :=
| KeyboardInterrupt
| OtherException (name : string).

(** How a block of statements ends: it falls through with a value, it
    executes [return v], or it raises. *)
Inductive completion (A : Type) : Type :=
| Done (a : A)
| Return (v : Z)
| Raise (e : exn).
Arguments Done {A} a.
Arguments Return {A} v.
Arguments Raise {A} e.

(** What a call of a Python function gives back to its caller. *)
Inductive result : Type :=
| Returned (v : Z)
| ReturnedNone
| Raised (e : exn).

(** Answer of the toolkit or of the terminal to one call: the call returns
    (the boolean is the value of [stdin_ready()], ignored for other calls)
    or an exception surfaces in it. *)
Inductive response : Type :=
| Returns (b : bool)
| Raises (e : exn).

Inductive App : Type :=
| GivenApp (id : nat)
| QApplication (serial : nat).

Definition Hook : Type := nat.

Inductive watcher : Type := QTimer | QSocketNotifier.

(** Calls into the host shell, in the order they happen. *)
Inductive event : Type :=
| allow_CTRL_C_called
| ignore_CTRL_C_called
| printed (line : string)
| print_exc_called (e : exn)
| clear_inputhook_called
| set_inputhook_called (h : Hook).

#[global] Instance exn_eq_dec : EqDecision exn.
Proof. solve_decision. Defined.
#[global] Instance App_eq_dec : EqDecision App.
Proof. solve_decision. Defined.
#[global] Instance watcher_eq_dec : EqDecision watcher.
Proof. solve_decision. Defined.
#[global] Instance event_eq_dec : EqDecision event.
Proof. solve_decision. Defined.

(** ** The state the hooks act on *)

Record State : Type := mkState {
  qt_instance : option App;       (* QtCore.QCoreApplication.instance() *)
  qt_constructed : list App;      (* applications built by QtGui.QApplication *)
  ip_inputhook_qt4 : option Hook; (* the attribute ip._inputhook_qt4 *)
  pre_prompt_hook : list Hook;    (* callbacks given to ip.set_hook *)
  got_kbdint : gmap Hook bool;    (* the cell got_kbdint[0] of each closure pair *)
  mgr_inputhook : option Hook;    (* the hook the manager has installed *)
  ctrl_c_allowed : bool;          (* SIGINT raises KeyboardInterrupt *)
  quit_slots : list watcher;      (* signals connected to app.quit *)
  trace : list event;             (* host calls, oldest first *)
  clock : nat                     (* number of toolkit calls made so far *)
}.

Definition with_instance (a : App) (st : State) : State :=
  mkState (Some a) (qt_constructed st ++ [a]) (ip_inputhook_qt4 st)
    (pre_prompt_hook st) (got_kbdint st) (mgr_inputhook st)
    (ctrl_c_allowed st) (quit_slots st) (trace st) (clock st).

Definition with_hook (h : Hook) (st : State) : State :=
  mkState (qt_instance st) (qt_constructed st) (Some h)
    (pre_prompt_hook st ++ [h]) (<[h := false]> (got_kbdint st))
    (mgr_inputhook st) (ctrl_c_allowed st) (quit_slots st) (trace st)
    (clock st).

Definition with_flag (h : Hook) (b : bool) (st : State) : State :=
  mkState (qt_instance st) (qt_constructed st) (ip_inputhook_qt4 st)
    (pre_prompt_hook st) (<[h := b]> (got_kbdint st)) (mgr_inputhook st)
    (ctrl_c_allowed st) (quit_slots st) (trace st) (clock st).

Definition with_slots (ws : list watcher) (st : State) : State :=
  mkState (qt_instance st) (qt_constructed st) (ip_inputhook_qt4 st)
    (pre_prompt_hook st) (got_kbdint st) (mgr_inputhook st)
    (ctrl_c_allowed st) ws (trace st) (clock st).

Definition tick (st : State) : State :=
  mkState (qt_instance st) (qt_constructed st) (ip_inputhook_qt4 st)
    (pre_prompt_hook st) (got_kbdint st) (mgr_inputhook st)
    (ctrl_c_allowed st) (quit_slots st) (trace st) (S (clock st)).

(** Host primitives: each one records its call and updates the part of the
    state it owns. *)
Definition host (ev : event) (st : State) : State :=
  let tr := trace st ++ [ev] in
  match ev with
  | allow_CTRL_C_called =>
      mkState (qt_instance st) (qt_constructed st) (ip_inputhook_qt4 st)
        (pre_prompt_hook st) (got_kbdint st) (mgr_inputhook st)
        true (quit_slots st) tr (clock st)
  | ignore_CTRL_C_called =>
      mkState (qt_instance st) (qt_constructed st) (ip_inputhook_qt4 st)
        (pre_prompt_hook st) (got_kbdint st) (mgr_inputhook st)
        false (quit_slots st) tr (clock st)
  | clear_inputhook_called =>
      mkState (qt_instance st) (qt_constructed st) (ip_inputhook_qt4 st)
        (pre_prompt_hook st) (got_kbdint st) None
        (ctrl_c_allowed st) (quit_slots st) tr (clock st)
  | set_inputhook_called h =>
      mkState (qt_instance st) (qt_constructed st) (ip_inputhook_qt4 st)
        (pre_prompt_hook st) (got_kbdint st) (Some h)
        (ctrl_c_allowed st) (quit_slots st) tr (clock st)
  | printed _ | print_exc_called _ =>
      mkState (qt_instance st) (qt_constructed st) (ip_inputhook_qt4 st)
        (pre_prompt_hook st) (got_kbdint st) (mgr_inputhook st)
        (ctrl_c_allowed st) (quit_slots st) tr (clock st)
  end.

(** ** The monad of statement blocks

    [None] is a run cut short by its fuel (only the polling loop uses it). *)

Definition M (A : Type) : Type := State -> option (completion A * State).

Definition pure {A} (a : A) : M A := fun st => Some (Done a, st).

Definition bind {A B} (m : M A) (k : A -> M B) : M B := fun st =>
  match m st with
  | None => None
  | Some (Done a, st') => k a st'
  | Some (Return v, st') => Some (Return v, st')
  | Some (Raise e, st') => Some (Raise e, st')
  end.

Notation "'let*' x ':=' m 'in' k" := (bind m (fun x => k))
  (at level 10, x name, m at level 100, k at level 200).
Notation "m ;;; k" := (bind m (fun _ => k))
  (at level 100, k at level 200, right associativity).

Definition return_ {A} (v : Z) : M A := fun st => Some (Return v, st).
Definition do_ (f : State -> State) : M unit := fun st => Some (Done tt, f st).
Definition get {A} (f : State -> A) : M A := fun st => Some (Done (f st), st).

(** [finally] runs after the block however it ended; the block's completion
    stands unless [fin] itself returns or raises. *)
Definition finally_ {A} (c : completion A) (fin : M unit) : M A := fun st =>
  match fin st with
  | None => None
  | Some (Done _, st') => Some (c, st')
  | Some (Return v, st') => Some (Return v, st')
  | Some (Raise e, st') => Some (Raise e, st')
  end.

(** [try: body / except KeyboardInterrupt: on_kbd / except: on_other /
    finally: fin]. *)
Definition try_except_finally (body : M unit) (on_kbd : M unit)
    (on_other : exn -> M unit) (fin : M unit) : M unit := fun st =>
  match body st with
  | None => None
  | Some (Raise KeyboardInterrupt, st1) =>
      match on_kbd st1 with
      | None => None
      | Some (c, st2) => finally_ c fin st2
      end
  | Some (Raise (OtherException n), st1) =>
      match on_other (OtherException n) st1 with
      | None => None
      | Some (c, st2) => finally_ c fin st2
      end
  | Some (c, st1) => finally_ c fin st1
  end.

(** Calling a function whose body is [m]. *)
Definition call (m : M unit) (st : State) : option (result * State) :=
  match m st with
  | None => None
  | Some (Done _, st') => Some (ReturnedNone, st')
  | Some (Return v, st') => Some (Returned v, st')
  | Some (Raise e, st') => Some (Raised e, st')
  end.

(** ** The idle callback and the restoration callback *)

(** The string printed when an interrupt is caught (it starts with a
    newline). *)
Definition kbdint_notice : string :=
  String (Ascii.ascii_of_nat 10) "KeyboardInterrupt - Ctrl-C again for new prompt".

Definition unregister_notice : string :=
  "Got exception from inputhook_qt4, unregistering.".

(** [disconnect] undoes the connection its object made, which is the most
    recent connection of that kind of object. *)
Fixpoint remove_first (w : watcher) (ws : list watcher) : list watcher :=
  match ws with
  | [] => []
  | w' :: ws' => if decide (w = w') then ws' else w' :: remove_first w ws'
  end.

Definition remove_last (w : watcher) (ws : list watcher) : list watcher :=
  rev (remove_first w (rev ws)).

Section Hooks.

(** [sys.platform], and the oracle: [env n] answers the [n]-th call made
    into the toolkit or the terminal. *)
Variable platform : string.
Variable env : nat -> response.

(** One call into the toolkit: the oracle decides whether it returns, and
    only then does its effect take place. *)
Definition toolkit (effect : State -> State) : M bool := fun st =>
  match env (clock st) with
  | Returns b => Some (Done b, effect (tick st))
  | Raises e => Some (Raise e, tick st)
  end.

Definition stdin_ready : M bool := toolkit id.
Definition QCoreApplication_instance : M (option App) :=
  toolkit id ;;; get qt_instance.
Definition processEvents : M bool := toolkit id.
Definition new_watcher : M bool := toolkit id.
Definition exec_ : M bool := toolkit id.
Definition timer_start : M bool := toolkit id.
Definition timer_stop : M bool := toolkit id.
Definition connect (w : watcher) : M bool :=
  toolkit (fun st => with_slots (quit_slots st ++ [w]) st).
Definition disconnect (w : watcher) : M bool :=
  toolkit (fun st => with_slots (remove_last w (quit_slots st)) st).

Definition allow_CTRL_C : M unit := do_ (host allow_CTRL_C_called).
Definition ignore_CTRL_C : M unit := do_ (host ignore_CTRL_C_called).
Definition print (s : string) : M unit := do_ (host (printed s)).
Definition print_exc (e : exn) : M unit := do_ (host (print_exc_called e)).
Definition clear_inputhook : M unit := do_ (host clear_inputhook_called).

(** [while not stdin_ready(): timer.start(50); app.exec_(); timer.stop()] *)
Fixpoint poll (fuel : nat) : M unit :=
  match fuel with
  | O => fun _ => None
  | S fuel' =>
      let* ready := stdin_ready in
      if ready then pure tt
      else timer_start ;;; exec_ ;;; timer_stop ;;; poll fuel'
  end.

(** The [try] block of [inputhook_qt4]. *)
Definition try_block (fuel : nat) : M unit :=
  allow_CTRL_C ;;;
  let* app := QCoreApplication_instance in
  match app with
  | None => return_ 0%Z
  | Some _ =>
      processEvents ;;;
      let* ready := stdin_ready in
      if ready then pure tt
      else if String.eqb platform "win32" then
        new_watcher ;;;
        connect QTimer ;;;
        poll fuel ;;;
        disconnect QTimer ;;;
        pure tt
      else
        new_watcher ;;;
        connect QSocketNotifier ;;;
        exec_ ;;;
        disconnect QSocketNotifier ;;;
        pure tt
  end.

Definition on_KeyboardInterrupt (h : Hook) : M unit :=
  ignore_CTRL_C ;;;
  do_ (with_flag h true) ;;;
  print kbdint_notice ;;;
  clear_inputhook.

Definition on_exception (e : exn) : M unit :=
  ignore_CTRL_C ;;;
  print_exc e ;;;
  print unregister_notice ;;;
  clear_inputhook.

Definition inputhook_qt4_body (h : Hook) (fuel : nat) : M unit :=
  try_except_finally (try_block fuel) (on_KeyboardInterrupt h) on_exception
    allow_CTRL_C ;;;
  return_ 0%Z.

Definition inputhook_qt4 (h : Hook) (fuel : nat) (st : State)
  : option (result * State) :=
  call (inputhook_qt4_body h fuel) st.

End Hooks.

(** States reached by the two handlers and the [finally] clause. *)
Definition after_interrupt (h : Hook) (st1 : State) : State :=
  host allow_CTRL_C_called
    (host clear_inputhook_called
       (host (printed kbdint_notice)
          (with_flag h true (host ignore_CTRL_C_called st1)))).

Definition after_exception (e : exn) (st1 : State) : State :=
  host allow_CTRL_C_called
    (host clear_inputhook_called
       (host (printed unregister_notice)
          (host (print_exc_called e) (host ignore_CTRL_C_called st1)))).

(** What a run of the toolkit leaves alone: everything but the clock and the
    connections to [app.quit]. *)
Definition same_session (st st' : State) : Prop :=
  qt_instance st' = qt_instance st /\
  qt_constructed st' = qt_constructed st /\
  ip_inputhook_qt4 st' = ip_inputhook_qt4 st /\
  pre_prompt_hook st' = pre_prompt_hook st /\
  got_kbdint st' = got_kbdint st /\
  mgr_inputhook st' = mgr_inputhook st /\
  ctrl_c_allowed st' = ctrl_c_allowed st /\
  trace st' = trace st.

(** [preprompthook_qt4]: the manager call [set_inputhook] and the flag. *)
Definition preprompthook_qt4 (h : Hook) (st : State) : State :=
  let st1 :=
    match got_kbdint st !! h with
    | Some true => host (set_inputhook_called h) st
    | _ => st
    end in
  with_flag h false st1.

(** ** [create_inputhook_qt4] *)

(** [QtGui.QApplication([" "])]: the new application becomes the
    process-wide instance. *)
Definition new_QApplication (st : State) : App * State :=
  let a := QApplication (length (qt_constructed st)) in
  (a, with_instance a st).

Definition resolve_app (app : option App) (st : State) : App * State :=
  match app with
  | Some a => (a, st)
  | None =>
      match qt_instance st with
      | Some a => (a, st)
      | None => new_QApplication st
      end
  end.

Definition create_inputhook_qt4 (app : option App) (st : State)
  : (App * Hook) * State :=
  let '(a, st1) := resolve_app app st in
  match ip_inputhook_qt4 st1 with
  | Some h => ((a, h), st1)
  | None =>
      let h := fresh (dom (got_kbdint st1)) in
      ((a, h), with_hook h st1)
  end.


(** ** The session as a transition system

    What can happen to a session: [create_inputhook_qt4] is called, the
    caller hands the hook to the manager or takes it away, the shell is idle
    and runs the installed hook, or a prompt is about to be displayed and the
    [pre_prompt_hook] callbacks run. *)

Inductive action : Type :=
| Install (app : option App)
| Enable
| Disable
| Idle (platform : string) (env : nat -> response) (fuel : nat)
| Prompt.

Definition run_pre_prompt_hook (st : State) : State :=
  foldl (fun s h => preprompthook_qt4 h s) st (pre_prompt_hook st).

Definition step (a : action) (st : State) : option State :=
  match a with
  | Install app => Some (snd (create_inputhook_qt4 app st))
  | Enable =>
      match ip_inputhook_qt4 st with
      | Some h => Some (host (set_inputhook_called h) st)
      | None => None
      end
  | Disable => Some (host clear_inputhook_called st)
  | Idle platform env fuel =>
      match mgr_inputhook st with
      | Some h => snd <$> inputhook_qt4 platform env h fuel st
      | None => None
      end
  | Prompt => Some (run_pre_prompt_hook st)
  end.

Fixpoint run (acts : list action) (st : State) : option State :=
  match acts with
  | [] => Some st
  | a :: acts' =>
      match step a st with
      | Some st' => run acts' st'
      | None => None
      end
  end.

(** An idle callback caught an interrupt when its [try] block ended in
    [KeyboardInterrupt]. *)
Definition caught_interrupt (platform : string) (env : nat -> response)
    (fuel : nat) (st : State) : bool :=
  match try_block platform env fuel st with
  | Some (Raise KeyboardInterrupt, _) => true
  | _ => false
  end.

(** Reading of a history: an interrupt was caught and no prompt has been
    displayed since. [b] is the reading before [acts]. *)
Fixpoint interrupt_pending (acts : list action) (st : State) (b : bool) : bool :=
  match acts with
  | [] => b
  | a :: acts' =>
      match step a st with
      | None => b
      | Some st' =>
          interrupt_pending acts' st'
            match a with
            | Idle platform env fuel =>
                if caught_interrupt platform env fuel st then true else b
            | Prompt => false
            | _ => b
            end
      end
  end.

(** A session in which [create_inputhook_qt4] has not run yet. *)
Definition fresh_session (st : State) : Prop :=
  ip_inputhook_qt4 st = None /\ pre_prompt_hook st = [] /\
  got_kbdint st = ∅ /\ mgr_inputhook st = None.

(** The polling loop of the win32 branch makes its [n]-th check of
    [stdin_ready()] at this call number, counted from the state the
    callback starts in. *)
Definition poll_check (st : State) (n : nat) : nat := clock st + 5 + 4 * n.

(** The wait for input ends: always with the notifier; with the timer, when
    some check of the loop does not answer "not ready". *)
Definition wait_ends (platform : string) (env : nat -> response)
    (st : State) : Prop :=
  String.eqb platform "win32" = false \/
  exists n, env (poll_check st n) <> Returns false.

(** ** [ipython3.py]: the cache of refactored sources *)

Module Auto2to3.

Record file : Type := mkFile {
  st_mtime : Q;
  contents : list Byte.byte
}.

(** The files that exist, by path. *)
Definition filesystem : Type := gmap string file.

(** [os.stat]: [None] is [FileNotFoundError]. *)
Definition os_stat (fs : filesystem) (path : string) : option file :=
  fs !! path.

(** [SourceFileLoader.get_data]. *)
Definition get_data (fs : filesystem) (path : string)
  : option (list Byte.byte) :=
  contents <$> fs !! path.

(** [_load_cached_2to3]: the value returned and the debug lines logged. *)
Definition _load_cached_2to3 (fs : filesystem) (path cache : string)
  : option (list Byte.byte) * list string :=
  match os_stat fs cache with
  | None => (None, ["Cache miss: " +:+ cache])
  | Some cache_stats =>
      match os_stat fs path with
      | None => (None, ["Cache miss: " +:+ cache])
      | Some source_stats =>
          if Qle_bool (st_mtime cache_stats) (st_mtime source_stats)
          then (None, ["Cache miss (stale): " +:+ cache])
          else (get_data fs cache, ["Cache hit: " +:+ cache])
      end
  end.

Section PathHook.

(** [os.path.isdir], the predicate given to [predicated_path_hook] and
    the refactoring tool given as loader detail. *)
Variable isdir : string -> bool.
Variable predicate : string -> bool.
Variable Tool : Type.
Variable refactoring_tool : Tool.

Record ImportError : Type := mkImportError {
  msg : string;
  error_path : string
}.

(** What [cls(path, refactoring_tool)] builds. *)
Record Auto2to3FileFinder : Type := mkFinder {
  finder_path : string;
  finder_tool : Tool
}.

Definition predicated_path_hook_for_FileFinder (path : string)
  : ImportError + Auto2to3FileFinder :=
  if negb (isdir path) then
    inl (mkImportError "only directories are supported" path)
  else if negb (predicate path) then
    inl (mkImportError "predicate not satisfied" path)
  else inr (mkFinder path refactoring_tool).

Definition predicated_path_hook
  : string -> ImportError + Auto2to3FileFinder :=
  predicated_path_hook_for_FileFinder.

End PathHook.

(** [predicate] of [ipython3.py], on paths that are already absolute and
    normalised (where [os.path.abspath] changes nothing): this directory
    and what lies below it. *)
Definition predicate (this_dir path : string) : bool :=
  String.eqb path this_dir || String.prefix (this_dir +:+ "/") path.

(** A source tree with one fresh and one stale cache file. *)
Definition sample_fs : filesystem :=
  <["/repo/IPython/__pycache__/a.ipy2to3.py" :=
      mkFile 5 [Byte.x61; Byte.x0a]]>
  (<["/repo/IPython/a.py" := mkFile 3 [Byte.x41; Byte.x0a]]>
  (<["/repo/IPython/__pycache__/b.ipy2to3.py" :=
      mkFile 7 [Byte.x62; Byte.x0a]]>
  (<["/repo/IPython/b.py" := mkFile 7 [Byte.x42; Byte.x0a]]> ∅))).

Definition sample_isdir (path : string) : bool :=
  bool_decide (path ∈ ["/repo"; "/repo/IPython"; "/usr/lib/python3"]).

End Auto2to3.

(** ** Sample sessions and oracles *)

Definition new_session : State :=
  mkState None [] None [] ∅ None true [] [] 0.

(** [create_inputhook_qt4(mgr)] followed by [mgr.set_inputhook(hook)]. *)
Definition enabled_session : State :=
  let '((_, h), st) := create_inputhook_qt4 None new_session in
  host (set_inputhook_called h) st.

(** Input is ready at once and nothing fails. *)
Definition env_ready : nat -> response := fun _ => Returns true.

(** [processEvents] raises. *)
Definition env_processEvents_raises : nat -> response := fun n =>
  match n with
  | 1 => Raises (OtherException "RuntimeError")
  | _ => Returns true
  end.

(** No input yet, and Ctrl-C arrives while [app.exec_()] runs (the sixth
    call on a platform with the socket notifier). *)
Definition env_interrupt_in_exec : nat -> response := fun n =>
  match n with
  | 2 => Returns false
  | 5 => Raises KeyboardInterrupt
  | _ => Returns true
  end.

(** No input for the first two checks of the polling loop. *)
Definition env_input_after_two_polls : nat -> response := fun n =>
  match n with
  | 2 | 5 | 9 => Returns false
  | _ => Returns true
  end.

(** The session after Ctrl-C was caught during [app.exec_()]. *)
Definition interrupted_session : State :=
  match inputhook_qt4 "linux" env_interrupt_in_exec 0 0 enabled_session with
  | Some (_, st) => st
  | None => enabled_session
  end.

(** The reading of "install twice returns the identical pair": whatever
    application the two calls are given. *)
Definition install_twice_same_pair (app1 app2 : option App) (st : State)
  : Prop :=
  let '(pair1, st1) := create_inputhook_qt4 app1 st in
  let '(pair2, _) := create_inputhook_qt4 app2 st1 in
  pair2 = pair1.

(** What holds of a session all along, [b] being the reading of its history:
    either nothing is installed, or there is the one closure pair, whose
    flag is [b]. *)
Definition session_inv (st : State) (b : bool) : Prop :=
  (fresh_session st /\ b = false) \/
  exists h,
    ip_inputhook_qt4 st = Some h /\ pre_prompt_hook st = [h] /\
    got_kbdint st = {[h := b]} /\
    (mgr_inputhook st = None \/ mgr_inputhook st = Some h).

(** The reading of "the watcher is always deregistered before returning":
    whatever the callback returns with, the connections to [app.quit] are
    those it started with. *)
Definition watcher_always_released (platform : string)
    (env : nat -> response) (h : Hook) (fuel : nat) (st : State) : Prop :=
  forall r st',
    inputhook_qt4 platform env h fuel st = Some (r, st') ->
    quit_slots st' = quit_slots st.

(** ** [ipython3.py]: the list of fixers *)

Module Fixers.

(** [list.remove(x)]: the first occurrence goes. *)
Fixpoint list_remove (x : string) (l : list string) : list string :=
  match l with
  | [] => []
  | y :: l' => if decide (x = y) then l' else y :: list_remove x l'
  end.

Definition not_found_warning (fixer_name : string) : string :=
  "Excluded fixer " +:+ fixer_name +:+ " not found".

(** One turn of the loop over [exclude_fixers]: the names kept so far and
    the warnings issued so far. *)
Definition exclude_one (acc : list string * list string)
    (fixer_name : string) : list string * list string :=
  let '(fixer_names, warned) := acc in
  if bool_decide (fixer_name ∈ fixer_names)
  then (list_remove fixer_name fixer_names, warned)
  else (fixer_names, warned ++ [not_found_warning fixer_name]).

(** [build_fixer_names]: [package_fixers] is what
    [refactor.get_fixers_from_package('lib2to3.fixes')] lists; the result is
    the list returned and the warnings issued. [None] and the empty list
    are both falsy. *)
Definition build_fixer_names (package_fixers : list string)
    (exclude_fixers : option (list string)) : list string * list string :=
  match exclude_fixers with
  | None | Some [] => (package_fixers, [])
  | Some exclude => foldl exclude_one (package_fixers, []) exclude
  end.

(** Number of times a name is listed. *)
Definition occurrences (x : string) (l : list string) : nat :=
  length (filter (fun y => y = x) l).

(** The exclusions of [ipython3.py]. *)
Definition exclude_fixers : list string :=
  ["lib2to3.fixes.fix_apply"; "lib2to3.fixes.fix_except";
   "lib2to3.fixes.fix_has_key"; "lib2to3.fixes.fix_next";
   "lib2to3.fixes.fix_repr"; "lib2to3.fixes.fix_tuple_params"].

Definition sample_package_fixers : list string :=
  ["lib2to3.fixes.fix_apply"; "lib2to3.fixes.fix_dict";
   "lib2to3.fixes.fix_except"; "lib2to3.fixes.fix_print";
   "lib2to3.fixes.fix_repr"].

End Fixers.

(** No call numbered from [a] up to, but not including, [b] raises. *)
Definition all_return (env : nat -> response) (a b : nat) : Prop :=
  forall k, a <= k < b -> exists r, env k = Returns r.

(** The session after [processEvents] raised. *)
Definition failed_session : State :=
  match inputhook_qt4 "linux" env_processEvents_raises 0 0 enabled_session with
  | Some (_, st) => st
  | None => enabled_session
  end.





(** ** [ipython3.py]: the path of the cache file and [get_data] *)

Module Loader.

(** The line feed, as a string. *)
Definition newline : string := String (Ascii.ascii_of_nat 10) "".

Fixpoint contains (c : ascii) (s : string) : bool :=
  match s with
  | "" => false
  | String c' s' => Ascii.eqb c' c || contains c s'
  end.

(** [(p[:i], p[i:])] for [i = p.rfind('/') + 1]. *)
Fixpoint rsplit (p : string) : string * string :=
  match p with
  | "" => ("", "")
  | String c p' =>
      match rsplit p' with
      | ("", t) =>
          if Ascii.eqb c "/" then (String c "", t) else ("", String c t)
      | (h, t) => (String c h, t)
      end
  end.

(** [s.rstrip('/')]. *)
Fixpoint rstrip (s : string) : string :=
  match s with
  | "" => ""
  | String c s' =>
      match rstrip s' with
      | "" => if Ascii.eqb c "/" then "" else String c ""
      | r => String c r
      end
  end.

(** [s == '/' * len(s)]. *)
Fixpoint all_sep (s : string) : bool :=
  match s with
  | "" => true
  | String c s' => Ascii.eqb c "/" && all_sep s'
  end.

(** [os.path.split] of [posixpath]. *)
Definition os_path_split (p : string) : string * string :=
  let '(head, tail) := rsplit p in
  (if all_sep head then head else rstrip head, tail).

(** [s.partition('.')]. *)
Fixpoint partition_dot (s : string) : string * string * string :=
  match s with
  | "" => ("", "", "")
  | String c s' =>
      if Ascii.eqb c "." then ("", ".", s')
      else let '(b, sp, r) := partition_dot s' in (String c b, sp, r)
  end.

Definition startswith_sep (s : string) : bool :=
  match s with
  | String c _ => Ascii.eqb c "/"
  | "" => false
  end.

Fixpoint endswith_sep (s : string) : bool :=
  match s with
  | "" => false
  | String c "" => Ascii.eqb c "/"
  | String _ s' => endswith_sep s'
  end.

(** One turn of the loop of [os.path.join] of [posixpath]. *)
Definition join_one (path b : string) : string :=
  if startswith_sep b then b
  else if String.eqb path "" || endswith_sep path then path +:+ b
  else path +:+ "/" +:+ b.

Definition os_path_join (a : string) (p : list string) : string :=
  foldl join_one a p.

(** [_2to3_cache_path]. *)
Definition _2to3_cache_path (path : string) : string :=
  let '(head, tail) := os_path_split path in
  let '(base_filename, sep, tail) := partition_dot tail in
  let tag := "ipy2to3" in
  let filename := base_filename +:+ sep +:+ tag +:+ sep +:+ tail in
  os_path_join head ["__pycache__"; filename].

(** [s[:-1]]. *)
Fixpoint drop_last (s : string) : string :=
  match s with
  | "" => ""
  | String _ "" => ""
  | String c s' => String c (drop_last s')
  end.

Section SourceFileLoader.

(** The refactoring tool: [_read_python_source] decodes a file and tells the
    encoding it found, [refactor_string] rewrites a source text. [encode] is
    [bytearray(output, encoding or sys.getdefaultencoding())]. *)
Variable read_python_source : list Byte.byte -> string * option string.
Variable refactor_string : string -> string.
Variable encode : string -> option string -> list Byte.byte.

(** The path the loader was made for. *)
Variable original_path : string.

(** [_refactor_2to3]; [None] when the file cannot be read. *)
Definition _refactor_2to3 (fs : Auto2to3.filesystem) (path : string)
  : option (string * option string) :=
  match fs !! path with
  | None => None
  | Some f =>
      let '(source, encoding) := read_python_source (Auto2to3.contents f) in
      let source := source +:+ newline in
      let tree := refactor_string source in
      Some (drop_last tree, encoding)
  end.

(** [SourceFileLoader.set_data]: the file is written at time [now] (the
    write is taken to succeed). *)
Definition set_data (now : Q) (fs : Auto2to3.filesystem) (path : string)
    (data : list Byte.byte) : Auto2to3.filesystem :=
  <[path := Auto2to3.mkFile now data]> fs.

(** [get_data]: the bytes returned and the files afterwards; [None] when
    reading a missing file raises. *)
Definition get_data (now : Q) (fs : Auto2to3.filesystem) (path : string)
  : option (list Byte.byte * Auto2to3.filesystem) :=
  if String.eqb path original_path then
    let cache := _2to3_cache_path path in
    match fst (Auto2to3._load_cached_2to3 fs path cache) with
    | Some data => Some (data, fs)
    | None =>
        match _refactor_2to3 fs path with
        | None => None
        | Some (output, encoding) =>
            let data := encode output encoding in
            Some (data, set_data now fs cache data)
        end
    end
  else
    match Auto2to3.get_data fs path with
    | Some data => Some (data, fs)
    | None => None
    end.

End SourceFileLoader.

Section Predicate.

(** [os.path.abspath] and the directory of [ipython3.py]. *)
Variable abspath : string -> string.
Variable this_dir : string.

(** [predicate] of [ipython3.py]. *)
Definition predicate (path : string) : bool :=
  Auto2to3.predicate this_dir (abspath path).

End Predicate.

(** A sample tool, which puts a comment line in front of the text, for
    files in ASCII. *)
Definition sample_read (bytes : list Byte.byte) : string * option string :=
  (String.string_of_list_byte bytes, Some "utf-8").
Definition sample_refactor (source : string) : string :=
  "# 2to3" +:+ newline +:+ source.
Definition sample_encode (output : string) (encoding : option string)
  : list Byte.byte :=
  String.list_byte_of_string output.

End Loader.



(** The file name [_2to3_cache_path] joins from the parts of the last
    component of the path. *)
Definition cache_filename (tail : string) : string :=
  let '(base_filename, sep, tail) := Loader.partition_dot tail in
  base_filename +:+ sep +:+ "ipy2to3" +:+ sep +:+ tail.





(** * Properties *)

(** ** The shape of one run of the idle callback *)

Section IdleCallback.

Variable platform : string.
Variable env : nat -> response.


Lemma inputhook_qt4_eq h fuel st :
  inputhook_qt4 platform env h fuel st =
  match try_block platform env fuel st with
  | None => None
  | Some (Done _, st1) => Some (Returned 0, host allow_CTRL_C_called st1)
  | Some (Return v, st1) => Some (Returned v, host allow_CTRL_C_called st1)
  | Some (Raise KeyboardInterrupt, st1) =>
      Some (Returned 0, after_interrupt h st1)
  | Some (Raise (OtherException n), st1) =>
      Some (Returned 0, after_exception (OtherException n) st1)
  end.
Proof.
  unfold inputhook_qt4, call, inputhook_qt4_body,
    bind, try_except_finally.
  destruct (try_block platform env fuel st) as [[[u|v|[|n]] st1]|]; reflexivity.
Qed.

Lemma poll_completion fuel st c st' :
  poll env fuel st = Some (c, st') -> c = Done tt \/ exists e, c = Raise e.
Proof.
  revert st. induction fuel as [|fuel IH]; intros st; simpl; [discriminate|].
  unfold bind, stdin_ready, timer_start, exec_, timer_stop, toolkit, pure.
  destruct (env (clock st)) as [[|]|e]; simpl;
    [intros [= <- <-]; auto | | intros [= <- <-]; eauto].
  destruct (env (S (clock st))) as [b1|e]; simpl;
    [|intros [= <- <-]; eauto].
  destruct (env (S (S (clock st)))) as [b2|e]; simpl;
    [|intros [= <- <-]; eauto].
  destruct (env (S (S (S (clock st))))) as [b3|e]; simpl;
    [|intros [= <- <-]; eauto].
  apply IH.
Qed.

Lemma same_session_refl st : same_session st st.
Proof. by repeat split. Qed.

Lemma same_session_trans st1 st2 st3 :
  same_session st1 st2 -> same_session st2 st3 -> same_session st1 st3.
Proof. unfold same_session. intuition congruence. Qed.

Lemma same_session_tick st : same_session st (tick st).
Proof. by repeat split. Qed.

Lemma same_session_with_slots ws st : same_session st (with_slots ws st).
Proof. by repeat split. Qed.

Lemma remove_last_snoc w ws : remove_last w (ws ++ [w]) = ws.
Proof.
  unfold remove_last. rewrite rev_app_distr. simpl.
  destruct (decide (w = w)); [apply rev_involutive | done].
Qed.

(** The polling loop only talks to the toolkit: it leaves the session and
    the connections as they are and moves the clock forward. *)
Lemma poll_frame fuel st c st' :
  poll env fuel st = Some (c, st') ->
  same_session st st' /\ quit_slots st' = quit_slots st /\
  clock st <= clock st'.
Proof.
  revert st. induction fuel as [|fuel IH]; intros st; simpl; [discriminate|].
  unfold bind, stdin_ready, timer_start, exec_, timer_stop, toolkit, pure.
  destruct (env (clock st)) as [[|]|e]; simpl;
    [intros [= <- <-] | | intros [= <- <-]];
    try (split; [apply same_session_tick | simpl; split; [done | lia]]).
  destruct (env (S (clock st))) as [b1|e]; simpl;
    [|intros [= <- <-]; repeat split; simpl; lia].
  destruct (env (S (S (clock st)))) as [b2|e]; simpl;
    [|intros [= <- <-]; repeat split; simpl; lia].
  destruct (env (S (S (S (clock st))))) as [b3|e]; simpl;
    [|intros [= <- <-]; repeat split; simpl; lia].
  intros H. apply IH in H as (Hs & Hq & Hc). simpl in *.
  split; [|split; [done | lia]].
  revert Hs. unfold same_session. simpl. tauto.
Qed.

(** A branch of the [try] block that stops at a call raising [e]. *)
Ltac ends_raising e :=
  intros [= <- <-]; repeat split; eauto;
  let H := fresh in intros H; by destruct (H e).

(** The [try] block: what it leaves alone and how it can end. *)
Lemma try_block_spec fuel st c st1 :
  try_block platform env fuel st = Some (c, st1) ->
  same_session (host allow_CTRL_C_called st) st1 /\
  (c = Done tt \/ c = Return 0 \/ exists e, c = Raise e) /\
  ((forall e, c <> Raise e) -> quit_slots st1 = quit_slots st).
Proof.
  unfold try_block, bind, allow_CTRL_C, do_,
    QCoreApplication_instance, processEvents, stdin_ready, new_watcher,
    connect, disconnect, exec_, toolkit, get, return_, pure, bind.
  cbn [clock host tick id].
  destruct (env (clock st)) as [b0|e]; cbn -[String.eqb];
    [|ends_raising e].
  destruct (qt_instance st) as [a|] eqn:Hq; cbn -[String.eqb];
    [|intros [= <- <-]; repeat split; auto].
  destruct (env (S (clock st))) as [b1|e]; cbn -[String.eqb];
    [|ends_raising e].
  destruct (env (S (S (clock st)))) as [[|]|e]; cbn -[String.eqb];
    [intros [= <- <-]; repeat split; auto | |
     ends_raising e].
  destruct (String.eqb platform "win32"); cbn.
  - destruct (env (S (S (S (clock st))))) as [b3|e]; cbn;
      [|ends_raising e].
    destruct (env (S (S (S (S (clock st)))))) as [b4|e]; cbn;
      [|ends_raising e].
    match goal with |- context [poll env fuel ?s] =>
      destruct (poll env fuel s) as [[cp sp]|] eqn:Hp end; [|discriminate].
    pose proof (poll_completion _ _ _ _ Hp) as Hc.
    apply poll_frame in Hp as (Hs & Hslots & _).
    destruct Hc as [-> | [e ->]];
      [|intros [= <- <-]; split; [|split; [eauto | intros H; by destruct (H e)]];
        revert Hs; unfold same_session; cbn; tauto].
    destruct (env (clock sp)) as [b5|e]; cbn;
      [|intros [= <- <-]; split; [|split; [eauto | intros H; by destruct (H e)]];
        revert Hs; unfold same_session; cbn; tauto].
    intros [= <- <-]. split; [|split; [auto|]].
    + revert Hs; unfold same_session; cbn; tauto.
    + intros _. cbn. rewrite Hslots. cbn. apply remove_last_snoc.
  - destruct (env (S (S (S (clock st))))) as [b3|e]; cbn;
      [|ends_raising e].
    destruct (env (S (S (S (S (clock st)))))) as [b4|e]; cbn;
      [|ends_raising e].
    destruct (env (S (S (S (S (S (clock st))))))) as [b5|e]; cbn;
      [|ends_raising e].
    destruct (env (S (S (S (S (S (S (clock st)))))))) as [b6|e]; cbn;
      [|ends_raising e].
    intros [= <- <-]. repeat split; auto. intros _. cbn.
    apply remove_last_snoc.
Qed.

(** The loop stops at the first check that does not answer "not ready". *)
Lemma poll_ends n st :
  env (clock st + 4 * n) <> Returns false ->
  exists c st', poll env (S n) st = Some (c, st').
Proof.
  revert st. induction n as [|n IH]; intros st Hn.
  - replace (clock st + 4 * 0) with (clock st) in Hn by lia.
    cbn. unfold bind, stdin_ready, toolkit, pure.
    destruct (env (clock st)) as [[|]|e]; cbn; eauto. done.
  - change (poll env (S (S n)) st) with
      (bind (stdin_ready env) (fun ready =>
         if ready then pure tt
         else timer_start env ;;; exec_ env ;;; timer_stop env ;;; poll env (S n))
         st).
    unfold bind, stdin_ready, timer_start, exec_, timer_stop, toolkit, pure.
    destruct (env (clock st)) as [[|]|e]; cbn -[poll]; eauto.
    destruct (env (S (clock st))) as [b1|e]; cbn -[poll]; eauto.
    destruct (env (S (S (clock st)))) as [b2|e]; cbn -[poll]; eauto.
    destruct (env (S (S (S (clock st))))) as [b3|e]; cbn -[poll];
      eauto.
    apply IH. cbn [clock tick].
    by replace (S (S (S (S (clock st)))) + 4 * n) with (clock st + 4 * S n)
      by lia.
Qed.

Lemma try_block_ends st :
  wait_ends platform env st -> exists fuel c st1, try_block platform env fuel st = Some (c, st1).
Proof.
  intros Hw.
  assert (exists fuel, forall s, clock s = clock st + 5 ->
            String.eqb platform "win32" = true ->
            exists c s', poll env fuel s = Some (c, s')) as [fuel Hpoll].
  { destruct Hw as [Hp | [n Hn]].
    - exists 0. intros s _ Hp'. congruence.
    - exists (S n). intros s Hs _. apply poll_ends.
      unfold poll_check in Hn. by rewrite Hs. }
  exists fuel.
  unfold try_block, bind, allow_CTRL_C, do_,
    QCoreApplication_instance, processEvents, stdin_ready, new_watcher,
    connect, disconnect, exec_, toolkit, get, return_, pure, bind.
  cbn [clock host tick id].
  destruct (env (clock st)) as [b0|e]; cbn -[String.eqb]; eauto.
  destruct (qt_instance st) as [a|] eqn:Hq; cbn -[String.eqb]; eauto.
  destruct (env (S (clock st))) as [b1|e]; cbn -[String.eqb]; eauto.
  destruct (env (S (S (clock st)))) as [[|]|e]; cbn -[String.eqb]; eauto.
  destruct (String.eqb platform "win32") eqn:Hplat; cbn.
  - destruct (env (S (S (S (clock st))))) as [b3|e]; cbn; eauto.
    destruct (env (S (S (S (S (clock st)))))) as [b4|e]; cbn; eauto.
    match goal with |- context [poll env fuel ?s] =>
      destruct (Hpoll s) as (cp & sp & ->); [cbn; lia | done |] end.
    destruct cp as [[]|v|e]; eauto.
    destruct (env (clock sp)) as [b5|e]; cbn; eauto.
  - destruct (env (S (S (S (clock st))))) as [b3|e]; cbn; eauto.
    destruct (env (S (S (S (S (clock st)))))) as [b4|e]; cbn; eauto.
    destruct (env (S (S (S (S (S (clock st))))))) as [b5|e]; cbn; eauto.
    destruct (env (S (S (S (S (S (S (clock st)))))))) as [b6|e]; cbn; eauto.
Qed.

End IdleCallback.

(** ** The four branches of the idle callback *)

Example branch_no_app :
  inputhook_qt4 "linux" env_ready 0 0 new_session
  = Some (Returned 0, host allow_CTRL_C_called
                        (tick (host allow_CTRL_C_called new_session))).
Proof. reflexivity. Qed.

Example branch_normal_win32 :
  exists st',
    inputhook_qt4 "win32" env_input_after_two_polls 0 3 enabled_session
    = Some (Returned 0, st') /\
    clock st' = 15 /\ quit_slots st' = [] /\
    trace st' = [set_inputhook_called 0; allow_CTRL_C_called;
                 allow_CTRL_C_called].
Proof. eexists. vm_compute. repeat split. Qed.

Example branch_win32_out_of_fuel :
  inputhook_qt4 "win32" env_input_after_two_polls 0 2 enabled_session = None.
Proof. reflexivity. Qed.

(** C6: every run of the idle callback that comes back returns 0 with the
    interrupt signal re-enabled as its last host call, whichever branch it
    took (no application, normal completion, interrupt caught, exception
    caught); and the callback does come back, with some amount of fuel,
    whenever the wait for input ends. *)
Theorem inputhook_qt4_returns_0_with_ctrl_c_allowed platform env h st :
  (forall fuel r st',
     inputhook_qt4 platform env h fuel st = Some (r, st') ->
     r = Returned 0 /\ ctrl_c_allowed st' = true /\
     last (trace st') = Some allow_CTRL_C_called) /\
  (wait_ends platform env st ->
   exists fuel st',
     inputhook_qt4 platform env h fuel st = Some (Returned 0, st')).
Proof.
  assert (forall fuel r st',
     inputhook_qt4 platform env h fuel st = Some (r, st') ->
     r = Returned 0 /\ ctrl_c_allowed st' = true /\
     last (trace st') = Some allow_CTRL_C_called) as Hret.
  { intros fuel r st'. rewrite inputhook_qt4_eq.
    destruct (try_block platform env fuel st) as [[c st1]|] eqn:Hb;
      [|discriminate].
    apply try_block_spec in Hb as (_ & Hc & _).
    destruct Hc as [-> | [-> | [[|n] ->]]]; intros [= <- <-];
      (split; [done | split; [done | apply last_snoc]]). }
  split; [exact Hret|].
  intros Hw. destruct (try_block_ends _ _ _ Hw) as (fuel & c & st1 & Hb).
  exists fuel.
  destruct (inputhook_qt4 platform env h fuel st) as [[r st']|] eqn:Hi.
  - destruct (Hret _ _ _ Hi) as [-> _]. eauto.
  - rewrite inputhook_qt4_eq, Hb in Hi. by destruct c as [[]|v|[|n]].
Qed.

Lemma inputhook_qt4_returns_0_with_ctrl_c_allowed_witness :
  (exists r st',
     inputhook_qt4 "win32" env_input_after_two_polls 0 3 enabled_session
       = Some (r, st') /\
     r = Returned 0 /\ ctrl_c_allowed st' = true /\
     last (trace st') = Some allow_CTRL_C_called) /\
  exists fuel st',
    inputhook_qt4 "win32" env_input_after_two_polls 0 fuel enabled_session
      = Some (Returned 0, st').
Proof.
  destruct (inputhook_qt4_returns_0_with_ctrl_c_allowed
              "win32" env_input_after_two_polls 0 enabled_session)
    as [Hret Hends].
  split.
  - do 2 eexists. split; [vm_compute; reflexivity|].
    apply (Hret 3). vm_compute. reflexivity.
  - apply Hends. right. exists 2. vm_compute. discriminate.
Defined.

(** C1: when the [try] block ends in an exception that is not an interrupt,
    the callback ignores Ctrl-C, prints the traceback and the unregistering
    line, calls the manager's [clear_inputhook], re-allows Ctrl-C and returns
    0: the manager has no hook left, the flag cells are untouched, and no
    exception leaves the callback. *)
Theorem inputhook_qt4_contains_exception platform env h fuel st name st1 :
  try_block platform env fuel st = Some (Raise (OtherException name), st1) ->
  exists st',
    inputhook_qt4 platform env h fuel st = Some (Returned 0, st') /\
    trace st' =
      trace st ++
      [allow_CTRL_C_called; ignore_CTRL_C_called;
       print_exc_called (OtherException name); printed unregister_notice;
       clear_inputhook_called; allow_CTRL_C_called] /\
    mgr_inputhook st' = None /\
    got_kbdint st' = got_kbdint st /\
    ip_inputhook_qt4 st' = ip_inputhook_qt4 st.
Proof.
  intros Hb. rewrite inputhook_qt4_eq, Hb. eexists. split; [reflexivity|].
  apply try_block_spec in Hb as ((_ & _ & Hip & _ & Hflag & _ & _ & Htr) & _).
  cbn in *. rewrite Htr, Hflag, Hip, <- !app_assoc. by cbn.
Qed.

Lemma inputhook_qt4_contains_exception_witness :
  exists st',
    inputhook_qt4 "linux" env_processEvents_raises 0 0 enabled_session
      = Some (Returned 0, st') /\
    trace st' =
      trace enabled_session ++
      [allow_CTRL_C_called; ignore_CTRL_C_called;
       print_exc_called (OtherException "RuntimeError");
       printed unregister_notice;
       clear_inputhook_called; allow_CTRL_C_called] /\
    mgr_inputhook st' = None /\
    got_kbdint st' = got_kbdint enabled_session /\
    ip_inputhook_qt4 st' = ip_inputhook_qt4 enabled_session.
Proof.
  eapply (inputhook_qt4_contains_exception
            "linux" env_processEvents_raises 0 0 enabled_session).
  vm_compute. reflexivity.
Defined.

(** C2: when the [try] block ends in [KeyboardInterrupt], the same run of
    the callback ignores Ctrl-C, sets the flag of its closure, prints the
    one-line notice, calls the manager's [clear_inputhook], re-allows Ctrl-C
    and returns 0: the interrupt does not leave the callback. *)
Theorem inputhook_qt4_catches_interrupt platform env h fuel st st1 :
  try_block platform env fuel st = Some (Raise KeyboardInterrupt, st1) ->
  exists st',
    inputhook_qt4 platform env h fuel st = Some (Returned 0, st') /\
    got_kbdint st' = <[h := true]> (got_kbdint st) /\
    got_kbdint st' !! h = Some true /\
    mgr_inputhook st' = None /\
    trace st' =
      trace st ++
      [allow_CTRL_C_called; ignore_CTRL_C_called; printed kbdint_notice;
       clear_inputhook_called; allow_CTRL_C_called].
Proof.
  intros Hb. rewrite inputhook_qt4_eq, Hb. eexists. split; [reflexivity|].
  apply try_block_spec in Hb as ((_ & _ & _ & _ & Hflag & _ & _ & Htr) & _).
  cbn in *. rewrite Htr, Hflag, <- !app_assoc.
  repeat split. apply lookup_insert_eq.
Qed.

Lemma inputhook_qt4_catches_interrupt_witness :
  exists st',
    inputhook_qt4 "linux" env_interrupt_in_exec 0 0 enabled_session
      = Some (Returned 0, st') /\
    got_kbdint st' = <[0 := true]> (got_kbdint enabled_session) /\
    got_kbdint st' !! 0 = Some true /\
    mgr_inputhook st' = None /\
    trace st' =
      trace enabled_session ++
      [allow_CTRL_C_called; ignore_CTRL_C_called; printed kbdint_notice;
       clear_inputhook_called; allow_CTRL_C_called].
Proof.
  eapply (inputhook_qt4_catches_interrupt
            "linux" env_interrupt_in_exec 0 0 enabled_session).
  vm_compute. reflexivity.
Defined.

(** C5, as the spec has it, fails: Ctrl-C during [app.exec_()] leaves the
    notifier connected to [app.quit] when the callback returns. *)
Lemma watcher_not_released_on_interrupt :
  ~ watcher_always_released "linux" env_interrupt_in_exec 0 0 enabled_session.
Proof.
  intros H.
  specialize (H (Returned 0)
    (after_interrupt 0
       (with_slots [QSocketNotifier]
          (tick (tick (tick (tick (tick (tick
             (host allow_CTRL_C_called enabled_session)))))))))).
  discriminate H. vm_compute. reflexivity.
Qed.

(** C5, amended: the handlers and the [finally] clause disconnect nothing,
    so the callback returns with the connections the [try] block left; and
    when the [try] block ends without raising, under either wait strategy,
    these are the connections the callback started with, the timer or the
    notifier having been disconnected. *)
Theorem watcher_released_unless_raised platform env h fuel st c st1 :
  try_block platform env fuel st = Some (c, st1) ->
  exists st',
    inputhook_qt4 platform env h fuel st = Some (Returned 0, st') /\
    quit_slots st' = quit_slots st1 /\
    ((forall e, c <> Raise e) -> quit_slots st' = quit_slots st).
Proof.
  intros Hb. rewrite inputhook_qt4_eq, Hb.
  apply try_block_spec in Hb as (_ & Hc & Hslots).
  destruct Hc as [-> | [-> | [[|n] ->]]]; eexists;
    (split; [reflexivity | split; [reflexivity|]]);
    intros Hn; try (by destruct (Hn _)); cbn; by apply Hslots.
Qed.

Lemma watcher_released_unless_raised_witness :
  exists st',
    inputhook_qt4 "win32" env_input_after_two_polls 0 3 enabled_session
      = Some (Returned 0, st') /\
    quit_slots st' = quit_slots enabled_session.
Proof.
  edestruct (watcher_released_unless_raised
               "win32" env_input_after_two_polls 0 3 enabled_session (Done tt))
    as (st' & Hi & _ & Hq); [vm_compute; reflexivity|].
  exists st'. split; [exact Hi | apply Hq; discriminate].
Defined.

(** ** The restoration callback *)

Lemma with_flag_id h b st :
  got_kbdint st !! h = Some b -> with_flag h b st = st.
Proof.
  intros H. destruct st. unfold with_flag. cbn in *. f_equal.
  by apply insert_id.
Qed.

(** C3: with the flag set, [preprompthook_qt4] hands the idle callback back
    to the manager and then clears the flag; with the flag clear it changes
    nothing, so running it a second time in a row changes nothing. *)
Theorem preprompthook_qt4_restores_then_idles h st :
  (got_kbdint st !! h = Some true ->
   preprompthook_qt4 h st
     = with_flag h false (host (set_inputhook_called h) st) /\
   mgr_inputhook (preprompthook_qt4 h st) = Some h /\
   trace (preprompthook_qt4 h st) = trace st ++ [set_inputhook_called h] /\
   got_kbdint (preprompthook_qt4 h st) !! h = Some false) /\
  (got_kbdint st !! h = Some false -> preprompthook_qt4 h st = st) /\
  (is_Some (got_kbdint st !! h) ->
   preprompthook_qt4 h (preprompthook_qt4 h st) = preprompthook_qt4 h st).
Proof.
  assert (got_kbdint st !! h = Some false -> preprompthook_qt4 h st = st)
    as Hclear.
  { intros H. unfold preprompthook_qt4. rewrite H. by apply with_flag_id. }
  split; [|split; [exact Hclear|]].
  - intros H. unfold preprompthook_qt4. rewrite H. cbn.
    repeat split. apply lookup_insert_eq.
  - intros _. unfold preprompthook_qt4 at 1.
    assert (got_kbdint (preprompthook_qt4 h st) !! h = Some false) as ->.
    { unfold preprompthook_qt4.
      destruct (got_kbdint st !! h) as [[|]|]; cbn; apply lookup_insert_eq. }
    apply with_flag_id. unfold preprompthook_qt4.
    destruct (got_kbdint st !! h) as [[|]|]; cbn; apply lookup_insert_eq.
Qed.

Lemma preprompthook_qt4_restores_then_idles_witness :
  (mgr_inputhook interrupted_session = None /\
   mgr_inputhook (preprompthook_qt4 0 interrupted_session) = Some 0 /\
   got_kbdint (preprompthook_qt4 0 interrupted_session) !! 0 = Some false) /\
  preprompthook_qt4 0 enabled_session = enabled_session /\
  preprompthook_qt4 0 (preprompthook_qt4 0 interrupted_session)
    = preprompthook_qt4 0 interrupted_session.
Proof.
  destruct (preprompthook_qt4_restores_then_idles 0 interrupted_session)
    as (Hset & _ & Htwice).
  destruct (preprompthook_qt4_restores_then_idles 0 enabled_session)
    as (_ & Hclear & _).
  split; [|split].
  - destruct Hset as (_ & Hm & _ & Hf); [vm_compute; reflexivity|].
    split; [vm_compute; reflexivity | split; [exact Hm | exact Hf]].
  - apply Hclear. vm_compute. reflexivity.
  - apply Htwice. exists true. vm_compute. reflexivity.
Defined.

(** ** Installing the hook *)

(** C8: called without an application, [create_inputhook_qt4] returns the
    process-wide instance when there is one and constructs nothing; when
    there is none it constructs exactly one application, which becomes the
    instance and is the one returned. *)
Theorem create_inputhook_qt4_one_application st :
  let '((a, _), st') := create_inputhook_qt4 None st in
  match qt_instance st with
  | Some q => a = q /\ qt_constructed st' = qt_constructed st
  | None => qt_constructed st' = qt_constructed st ++ [a]
  end /\
  qt_instance st' = Some a.
Proof.
  unfold create_inputhook_qt4, resolve_app, new_QApplication.
  destruct (qt_instance st) as [q|] eqn:Hq;
    destruct (ip_inputhook_qt4 _) as [h|] eqn:Hh; cbn; auto.
Qed.

(** What one run of the idle callback does to the session. *)
Lemma inputhook_qt4_frame platform env h fuel st r st' :
  inputhook_qt4 platform env h fuel st = Some (r, st') ->
  qt_instance st' = qt_instance st /\
  qt_constructed st' = qt_constructed st /\
  ip_inputhook_qt4 st' = ip_inputhook_qt4 st /\
  pre_prompt_hook st' = pre_prompt_hook st /\
  got_kbdint st' =
    (if caught_interrupt platform env fuel st
     then <[h := true]> (got_kbdint st) else got_kbdint st) /\
  (mgr_inputhook st' = mgr_inputhook st \/ mgr_inputhook st' = None).
Proof.
  rewrite inputhook_qt4_eq. unfold caught_interrupt.
  destruct (try_block platform env fuel st) as [[c st1]|] eqn:Hb;
    [|discriminate].
  apply try_block_spec in Hb
    as ((Hq & Hc & Hip & Hpp & Hflag & Hm & _ & _) & _ & _).
  cbn in *.
  destruct c as [[]|v|[|n]]; intros [= <- <-]; cbn;
    rewrite ?Hq, ?Hc, ?Hip, ?Hpp, ?Hflag, ?Hm; auto 10.
Qed.

Lemma preprompthook_qt4_frame h st :
  qt_instance (preprompthook_qt4 h st) = qt_instance st /\
  qt_constructed (preprompthook_qt4 h st) = qt_constructed st /\
  ip_inputhook_qt4 (preprompthook_qt4 h st) = ip_inputhook_qt4 st /\
  pre_prompt_hook (preprompthook_qt4 h st) = pre_prompt_hook st.
Proof.
  unfold preprompthook_qt4. by destruct (got_kbdint st !! h) as [[|]|].
Qed.

Lemma foldl_preprompthook_qt4_frame hs st :
  let st' := foldl (fun s h => preprompthook_qt4 h s) st hs in
  qt_instance st' = qt_instance st /\
  qt_constructed st' = qt_constructed st /\
  ip_inputhook_qt4 st' = ip_inputhook_qt4 st /\
  pre_prompt_hook st' = pre_prompt_hook st.
Proof.
  revert st. induction hs as [|h hs IH]; intros st; cbn; [done|].
  destruct (IH (preprompthook_qt4 h st)) as (-> & -> & -> & ->).
  apply preprompthook_qt4_frame.
Qed.

Lemma create_inputhook_qt4_installed app st h :
  ip_inputhook_qt4 st = Some h ->
  snd (fst (create_inputhook_qt4 app st)) = h /\
  ip_inputhook_qt4 (snd (create_inputhook_qt4 app st)) = Some h /\
  pre_prompt_hook (snd (create_inputhook_qt4 app st)) = pre_prompt_hook st /\
  got_kbdint (snd (create_inputhook_qt4 app st)) = got_kbdint st /\
  mgr_inputhook (snd (create_inputhook_qt4 app st)) = mgr_inputhook st.
Proof.
  intros Hh. unfold create_inputhook_qt4, resolve_app, new_QApplication.
  destruct app as [a|]; [|destruct (qt_instance st) as [q|]]; cbn;
    rewrite Hh; by cbn.
Qed.

Lemma create_inputhook_qt4_with_instance app st q :
  qt_instance st = Some q ->
  qt_instance (snd (create_inputhook_qt4 app st)) = Some q.
Proof.
  intros Hq. unfold create_inputhook_qt4, resolve_app.
  destruct app as [a|]; rewrite ?Hq; cbn;
    by destruct (ip_inputhook_qt4 st).
Qed.

(** Once installed, the hook stays the session's hook, and an application
    instance stays the instance, whatever happens to the session. *)
Lemma step_keeps_hook a st st' h :
  step a st = Some st' ->
  ip_inputhook_qt4 st = Some h -> ip_inputhook_qt4 st' = Some h.
Proof.
  destruct a as [app| | |platform env fuel|]; cbn.
  - intros [= <-] Hh. by apply create_inputhook_qt4_installed.
  - destruct (ip_inputhook_qt4 st); [|done]. by intros [= <-].
  - by intros [= <-].
  - destruct (mgr_inputhook st) as [h'|]; [|done].
    destruct (inputhook_qt4 _ _ _ _ _) as [[r s]|] eqn:Hi; [|done].
    intros [= <-]. apply inputhook_qt4_frame in Hi as (_&_& -> &_). done.
  - intros [= <-]. unfold run_pre_prompt_hook.
    by destruct (foldl_preprompthook_qt4_frame (pre_prompt_hook st) st)
      as (_&_& -> &_).
Qed.

Lemma step_keeps_instance a st st' q :
  step a st = Some st' ->
  qt_instance st = Some q -> qt_instance st' = Some q.
Proof.
  destruct a as [app| | |platform env fuel|]; cbn.
  - intros [= <-] Hq. by apply create_inputhook_qt4_with_instance.
  - destruct (ip_inputhook_qt4 st); [|done]. by intros [= <-].
  - by intros [= <-].
  - destruct (mgr_inputhook st) as [h'|]; [|done].
    destruct (inputhook_qt4 _ _ _ _ _) as [[r s]|] eqn:Hi; [|done].
    intros [= <-]. apply inputhook_qt4_frame in Hi as (-> &_). done.
  - intros [= <-]. unfold run_pre_prompt_hook.
    by destruct (foldl_preprompthook_qt4_frame (pre_prompt_hook st) st)
      as (-> &_).
Qed.

Lemma run_keeps_hook acts st st' h :
  run acts st = Some st' ->
  ip_inputhook_qt4 st = Some h -> ip_inputhook_qt4 st' = Some h.
Proof.
  revert st. induction acts as [|a acts IH]; intros st; cbn.
  - by intros [= <-].
  - destruct (step a st) as [s|] eqn:Hs; [|done].
    intros Hr Hh. eapply IH; [exact Hr|]. by eapply step_keeps_hook.
Qed.

Lemma run_keeps_instance acts st st' q :
  run acts st = Some st' ->
  qt_instance st = Some q -> qt_instance st' = Some q.
Proof.
  revert st. induction acts as [|a acts IH]; intros st; cbn.
  - by intros [= <-].
  - destruct (step a st) as [s|] eqn:Hs; [|done].
    intros Hr Hq. eapply IH; [exact Hr|]. by eapply step_keeps_instance.
Qed.

Lemma create_inputhook_qt4_sets_hook app st :
  ip_inputhook_qt4 (snd (create_inputhook_qt4 app st))
  = Some (snd (fst (create_inputhook_qt4 app st))).
Proof.
  unfold create_inputhook_qt4, resolve_app, new_QApplication.
  destruct app as [a|]; [|destruct (qt_instance st) as [q|]]; cbn;
    destruct (ip_inputhook_qt4 st) eqn:Hh; cbn; by rewrite ?Hh.
Qed.

Lemma create_inputhook_qt4_instance st :
  qt_instance (snd (create_inputhook_qt4 None st))
  = Some (fst (fst (create_inputhook_qt4 None st))).
Proof.
  unfold create_inputhook_qt4, resolve_app, new_QApplication.
  destruct (qt_instance st) as [q|] eqn:Hq; cbn;
    by destruct (ip_inputhook_qt4 st).
Qed.

Lemma create_inputhook_qt4_given a st :
  fst (fst (create_inputhook_qt4 (Some a) st)) = a.
Proof.
  unfold create_inputhook_qt4, resolve_app. cbn.
  by destruct (ip_inputhook_qt4 st).
Qed.

Lemma create_inputhook_qt4_again app st h :
  ip_inputhook_qt4 st = Some h ->
  (app = None -> is_Some (qt_instance st)) ->
  create_inputhook_qt4 app st
  = ((match app with Some a => a | None => default (GivenApp 0) (qt_instance st) end,
      h), st).
Proof.
  intros Hh Hq. unfold create_inputhook_qt4, resolve_app.
  destruct app as [a|]; cbn; [by rewrite Hh|].
  destruct Hq as [q Hq]; [done|]. rewrite Hq. cbn. by rewrite Hh.
Qed.

(** C4, as the spec has it, fails: the application of the returned pair is
    the one the call was given, so two calls given two applications return
    two pairs. *)
Lemma install_twice_pairs_differ :
  ~ install_twice_same_pair (Some (GivenApp 1)) (Some (GivenApp 2)) new_session.
Proof. vm_compute. discriminate. Qed.

(** C4, amended: whatever happens to the session between two calls of
    [create_inputhook_qt4], the second call returns the hook of the first
    and leaves the session's hook, its [pre_prompt_hook] callbacks and the
    flag cells as they are (no second closure pair is made); and when the
    two calls are given the same application, or both none, the second
    returns the pair of the first and changes nothing at all. *)
Theorem create_inputhook_qt4_reuses_hook app1 app2 st acts st2 :
  run acts (snd (create_inputhook_qt4 app1 st)) = Some st2 ->
  let pair1 := fst (create_inputhook_qt4 app1 st) in
  let '(pair2, st3) := create_inputhook_qt4 app2 st2 in
  snd pair2 = snd pair1 /\
  ip_inputhook_qt4 st3 = ip_inputhook_qt4 st2 /\
  pre_prompt_hook st3 = pre_prompt_hook st2 /\
  got_kbdint st3 = got_kbdint st2 /\
  (app2 = app1 -> pair2 = pair1 /\ st3 = st2).
Proof.
  intros Hrun. cbn zeta.
  pose proof (run_keeps_hook _ _ _ _ Hrun
                (create_inputhook_qt4_sets_hook app1 st)) as Hh.
  destruct (create_inputhook_qt4_installed app2 st2 _ Hh)
    as (Hsnd & Hip & Hpp & Hflag & _).
  destruct (create_inputhook_qt4 app2 st2) as [pair2 st3] eqn:Hc2.
  cbn in *. rewrite Hip, Hh.
  repeat (split; [done|]).
  intros ->.
  assert (app1 = None -> qt_instance st2
            = Some (fst (fst (create_inputhook_qt4 app1 st)))) as Hq.
  { intros ->. eapply run_keeps_instance; [exact Hrun|].
    apply create_inputhook_qt4_instance. }
  rewrite (create_inputhook_qt4_again app1 st2 _ Hh) in Hc2.
  - injection Hc2 as <- <-. split; [|done].
    destruct (create_inputhook_qt4 app1 st) as [[a1 h1] st1] eqn:Hc1.
    cbn in *. f_equal.
    destruct app1 as [a|].
    + by rewrite <- (create_inputhook_qt4_given a st), Hc1.
    + by rewrite Hq.
  - intros H. rewrite Hq; eauto.
Qed.

Lemma create_inputhook_qt4_reuses_hook_witness :
  let st1 := snd (create_inputhook_qt4 None new_session) in
  let acts := [Enable; Idle "linux" env_interrupt_in_exec 0; Prompt] in
  exists st2,
    run acts st1 = Some st2 /\
    create_inputhook_qt4 None st2
    = (fst (create_inputhook_qt4 None new_session), st2).
Proof.
  cbn zeta.
  destruct (run [Enable; Idle "linux" env_interrupt_in_exec 0; Prompt]
              (snd (create_inputhook_qt4 None new_session)))
    as [st2|] eqn:Hrun; [|by vm_compute in Hrun].
  exists st2. split; [done|].
  pose proof (create_inputhook_qt4_reuses_hook None None new_session _ _ Hrun)
    as H.
  cbn zeta in H.
  destruct (create_inputhook_qt4 None st2) as [pair2 st3].
  destruct H as (_ & _ & _ & _ & H). by destruct H as [-> ->].
Defined.

(** ** The interrupt-pending flag along a session *)

Lemma step_session_inv a st st' b :
  step a st = Some st' ->
  session_inv st b ->
  session_inv st'
    match a with
    | Idle platform env fuel =>
        if caught_interrupt platform env fuel st then true else b
    | Prompt => false
    | _ => b
    end.
Proof.
  intros Hstep [[(Hip & Hpp & Hflag & Hm) ->] | (h & Hip & Hpp & Hflag & Hm)].
  - (* nothing installed yet *)
    destruct a as [app| | |platform env fuel|]; cbn in Hstep.
    + injection Hstep as <-. right.
      unfold create_inputhook_qt4, resolve_app, new_QApplication.
      exists (fresh (dom (got_kbdint st))).
      destruct app as [a|]; [|destruct (qt_instance st) as [q|]]; cbn;
        rewrite Hip; cbn; rewrite Hpp, Hflag, Hm;
        repeat split; auto.
    + by rewrite Hip in Hstep.
    + injection Hstep as <-. left. by repeat split.
    + by rewrite Hm in Hstep.
    + injection Hstep as <-. left. unfold run_pre_prompt_hook.
      rewrite Hpp. cbn. by repeat split.
  - (* the closure pair [h] is installed *)
    right. exists h.
    destruct a as [app| | |platform env fuel|]; cbn in Hstep.
    + injection Hstep as <-.
      destruct (create_inputhook_qt4_installed app st h Hip)
        as (_ & -> & -> & -> & ->). done.
    + rewrite Hip in Hstep. injection Hstep as <-. cbn. auto.
    + injection Hstep as <-. cbn. auto.
    + destruct (mgr_inputhook st) as [h'|] eqn:Hm'; [|done].
      assert (h' = h) as -> by (destruct Hm; congruence).
      destruct (inputhook_qt4 _ _ _ _ _) as [[r s]|] eqn:Hi; [|done].
      injection Hstep as <-.
      apply inputhook_qt4_frame in Hi as (_ & _ & -> & -> & -> & Hm'').
      split; [done|]. split; [done|].
      split; [|destruct Hm''; auto; congruence].
      destruct (caught_interrupt platform env fuel st); [|done].
      rewrite Hflag. apply insert_singleton_eq.
    + injection Hstep as <-. unfold run_pre_prompt_hook.
      rewrite Hpp. cbn. unfold preprompthook_qt4.
      rewrite Hflag, lookup_singleton_eq.
      destruct b; cbn; rewrite ?Hip, ?Hpp, ?Hflag;
        (split; [done|]; split; [done|];
         split; [apply insert_singleton_eq | auto]).
Qed.

Lemma run_session_inv acts st st' b :
  run acts st = Some st' ->
  session_inv st b ->
  session_inv st' (interrupt_pending acts st b).
Proof.
  revert st b. induction acts as [|a acts IH]; intros st b; cbn.
  - by intros [= <-].
  - destruct (step a st) as [s|] eqn:Hs; [|done].
    intros Hr Hinv. apply (IH _ _ Hr). by apply step_session_inv.
Qed.

(** C7: in every state a session reaches from its start, a flag cell
    exists only for the installed closure pair, and it holds [true] exactly
    when the history reads "an idle callback caught an interrupt and no
    prompt was displayed since"; in particular nothing but a caught
    interrupt sets it, and the next prompt clears it. *)
Theorem flag_true_only_between_interrupt_and_prompt st acts st' h b :
  fresh_session st ->
  run acts st = Some st' ->
  got_kbdint st' !! h = Some b ->
  b = interrupt_pending acts st false /\ ip_inputhook_qt4 st' = Some h.
Proof.
  intros Hfresh Hrun Hb.
  assert (session_inv st false) as Hinv by (by left).
  apply (run_session_inv _ _ _ _ Hrun) in Hinv
    as [[(_ & _ & Hflag & _) _] | (h' & Hip & _ & Hflag & _)].
  - by rewrite Hflag in Hb.
  - rewrite Hflag in Hb. apply lookup_singleton_Some in Hb as [<- <-]. done.
Qed.

Lemma flag_true_only_between_interrupt_and_prompt_witness :
  let acts := [Install None; Enable; Idle "linux" env_interrupt_in_exec 0] in
  exists st',
    run acts new_session = Some st' /\
    got_kbdint st' !! 0 = Some true /\
    true = interrupt_pending acts new_session false /\
    false = interrupt_pending (acts ++ [Prompt]) new_session false.
Proof.
  cbn zeta.
  destruct (run [Install None; Enable; Idle "linux" env_interrupt_in_exec 0]
              new_session) as [st'|] eqn:Hrun; [|by vm_compute in Hrun].
  exists st'. split; [done|].
  assert (got_kbdint st' !! 0 = Some true) as Hflag.
  { vm_compute in Hrun. injection Hrun as <-. vm_compute. reflexivity. }
  split; [done|]. split.
  - eapply (flag_true_only_between_interrupt_and_prompt new_session);
      [by repeat split | exact Hrun | exact Hflag].
  - destruct (run ([Install None; Enable;
                    Idle "linux" env_interrupt_in_exec 0] ++ [Prompt])
                new_session) as [st''|] eqn:Hrun'; [|by vm_compute in Hrun'].
    eapply (flag_true_only_between_interrupt_and_prompt new_session _ st'' 0);
      [by repeat split | exact Hrun' |].
    vm_compute in Hrun'. injection Hrun' as <-. vm_compute. reflexivity.
Defined.

(** ** The import hook of [ipython3.py] *)

(** C9: [_load_cached_2to3] returns the bytes of the cache file exactly when
    both files exist and the cache is strictly newer than the source; it
    returns [None] exactly when one of them is missing or the cache is not
    newer, equal times included. *)
Theorem load_cached_2to3_iff_strictly_newer
    (fs : Auto2to3.filesystem) (path cache : string) :
  (forall data,
     fst (Auto2to3._load_cached_2to3 fs path cache) = Some data <->
     exists c s,
       Auto2to3.os_stat fs cache = Some c /\
       Auto2to3.os_stat fs path = Some s /\
       (Auto2to3.st_mtime s < Auto2to3.st_mtime c)%Q /\
       data = Auto2to3.contents c) /\
  (fst (Auto2to3._load_cached_2to3 fs path cache) = None <->
   Auto2to3.os_stat fs cache = None \/
   Auto2to3.os_stat fs path = None \/
   exists c s,
     Auto2to3.os_stat fs cache = Some c /\
     Auto2to3.os_stat fs path = Some s /\
     (Auto2to3.st_mtime c <= Auto2to3.st_mtime s)%Q).
Proof.
  unfold Auto2to3._load_cached_2to3, Auto2to3.get_data, Auto2to3.os_stat.
  destruct (fs !! cache) as [c|] eqn:Hc; cbn.
  2:{ split; [|split; auto]. intros data. split; [done|].
      by intros (? & ? & [=] & _). }
  destruct (fs !! path) as [s|] eqn:Hs; cbn.
  2:{ split; [|split; auto]. intros data. split; [done|].
      by intros (? & ? & _ & [=] & _). }
  destruct (Qle_bool (Auto2to3.st_mtime c) (Auto2to3.st_mtime s)) eqn:Hle;
    cbn; rewrite ?Hc; cbn.
  - apply Qle_bool_iff in Hle.
    split; [|split; [intros _; right; right; eauto 10 | done]].
    intros data. split; [done|].
    intros (c' & s' & [= <-] & [= <-] & Hlt & _).
    by apply Qlt_not_le in Hlt.
  - assert (Auto2to3.st_mtime s < Auto2to3.st_mtime c)%Q as Hlt.
    { apply Qnot_le_lt. intros H. apply Qle_bool_iff in H. congruence. }
    split.
    + intros data. split.
      * intros [= <-]. eauto 10.
      * by intros (c' & s' & [= <-] & _ & _ & ->).
    + split; [done|].
      intros [[=] | [[=] | (c' & s' & [= <-] & [= <-] & Hle')]].
      by apply Qlt_not_le in Hlt.
Qed.

Lemma load_cached_2to3_iff_strictly_newer_witness :
  fst (Auto2to3._load_cached_2to3 Auto2to3.sample_fs
         "/repo/IPython/a.py" "/repo/IPython/__pycache__/a.ipy2to3.py")
    = Some [Byte.x61; Byte.x0a] /\
  fst (Auto2to3._load_cached_2to3 Auto2to3.sample_fs
         "/repo/IPython/b.py" "/repo/IPython/__pycache__/b.ipy2to3.py")
    = None.
Proof.
  split.
  - apply (load_cached_2to3_iff_strictly_newer Auto2to3.sample_fs).
    exists (Auto2to3.mkFile 5 [Byte.x61; Byte.x0a]),
      (Auto2to3.mkFile 3 [Byte.x41; Byte.x0a]).
    repeat split; vm_compute; reflexivity.
  - apply (load_cached_2to3_iff_strictly_newer Auto2to3.sample_fs).
    right. right.
    exists (Auto2to3.mkFile 7 [Byte.x62; Byte.x0a]),
      (Auto2to3.mkFile 7 [Byte.x42; Byte.x0a]).
    repeat split; vm_compute; try reflexivity. discriminate.
Defined.

(** C10: the closure made by [predicated_path_hook] raises [ImportError]
    exactly when the path is not a directory or the predicate is false on
    it; otherwise it returns the finder built for that path, so every finder
    it returns is for a directory the predicate accepts. *)
Theorem predicated_path_hook_raises_iff
    (isdir predicate : string -> bool) (Tool : Type) (tool : Tool)
    (path : string) :
  let hook := Auto2to3.predicated_path_hook isdir predicate Tool tool in
  ((exists err, hook path = inl err) <->
   isdir path = false \/ predicate path = false) /\
  (isdir path = true -> predicate path = true ->
   hook path = inr (Auto2to3.mkFinder Tool path tool)) /\
  (forall finder,
     hook path = inr finder ->
     isdir path = true /\ predicate path = true /\
     Auto2to3.finder_path Tool finder = path).
Proof.
  cbn zeta.
  unfold Auto2to3.predicated_path_hook,
    Auto2to3.predicated_path_hook_for_FileFinder.
  destruct (isdir path), (predicate path); cbn.
  - split; [|split; [done | by intros f [= <-]]].
    split; [by intros [err [=]] | by intros [[=] | [=]]].
  - split; [|split; [done | done]]. split; eauto.
  - split; [|split; [done | done]]. split; eauto.
  - split; [|split; [done | done]]. split; eauto.
Qed.

Lemma predicated_path_hook_raises_iff_witness :
  let hook :=
    Auto2to3.predicated_path_hook Auto2to3.sample_isdir
      (Auto2to3.predicate "/repo") nat 0 in
  hook "/repo/IPython" = inr (Auto2to3.mkFinder nat "/repo/IPython" 0) /\
  (exists err, hook "/usr/lib/python3" = inl err) /\
  (exists err, hook "/repo/IPython/a.py" = inl err).
Proof.
  cbn zeta. split; [|split].
  - apply (predicated_path_hook_raises_iff Auto2to3.sample_isdir
             (Auto2to3.predicate "/repo") nat 0 "/repo/IPython");
      vm_compute; reflexivity.
  - apply (predicated_path_hook_raises_iff Auto2to3.sample_isdir
             (Auto2to3.predicate "/repo") nat 0 "/usr/lib/python3").
    right. vm_compute. reflexivity.
  - apply (predicated_path_hook_raises_iff Auto2to3.sample_isdir
             (Auto2to3.predicate "/repo") nat 0 "/repo/IPython/a.py").
    left. vm_compute. reflexivity.
Defined.

(** ** The list of fixers *)

Lemma build_fixer_names_foldl package_fixers exclude :
  Fixers.build_fixer_names package_fixers (Some exclude)
  = foldl Fixers.exclude_one (package_fixers, []) exclude.
Proof. by destruct exclude. Qed.

Lemma occurrences_list_remove x y l :
  y ∈ l ->
  Fixers.occurrences x (Fixers.list_remove y l)
  = Fixers.occurrences x l - (if decide (y = x) then 1 else 0).
Proof.
  unfold Fixers.occurrences.
  induction l as [|z l IH]; intros Hin; [by apply elem_of_nil in Hin|].
  cbn [Fixers.list_remove]. rewrite filter_cons.
  destruct (decide (y = z)) as [->|Hyz].
  - destruct (decide (z = x)); cbn; lia.
  - apply elem_of_cons in Hin as [?|Hin]; [done|].
    rewrite filter_cons.
    destruct (decide (z = x)) as [->|?]; cbn; rewrite (IH Hin); [|done].
    rewrite decide_False by done. lia.
Qed.

Lemma occurrences_zero x l : x ∉ l -> Fixers.occurrences x l = 0.
Proof.
  unfold Fixers.occurrences. induction l as [|z l IH]; [done|].
  intros Hn. apply not_elem_of_cons in Hn as [Hne Hn].
  rewrite filter_cons, decide_False by done. auto.
Qed.

Lemma occurrences_cons x y l :
  Fixers.occurrences x (y :: l)
  = (if decide (y = x) then 1 else 0) + Fixers.occurrences x l.
Proof.
  unfold Fixers.occurrences. rewrite filter_cons.
  by destruct (decide (y = x)).
Qed.

Lemma length_list_remove y l :
  y ∈ l -> S (length (Fixers.list_remove y l)) = length l.
Proof.
  induction l as [|z l IH]; intros Hin; [by apply elem_of_nil in Hin|].
  cbn. destruct (decide (y = z)); [done|].
  apply elem_of_cons in Hin as [?|Hin]; [done|]. cbn. by rewrite IH.
Qed.

Lemma filter_all {A} (P : A -> Prop) `{forall x, Decision (P x)} (l : list A) :
  (forall x, x ∈ l -> P x) -> filter P l = l.
Proof.
  induction l as [|z l IH]; intros Hall; [done|].
  rewrite filter_cons_True by (apply Hall; left).
  f_equal. apply IH. intros x Hx. apply Hall. by right.
Qed.

Lemma list_remove_NoDup y l :
  NoDup l -> Fixers.list_remove y l = filter (fun z => z ≠ y) l.
Proof.
  induction 1 as [|z l Hz Hnd IH]; [done|].
  cbn [Fixers.list_remove]. rewrite filter_cons.
  destruct (decide (y = z)) as [->|Hyz].
  - rewrite decide_False by tauto.
    symmetry. apply filter_all. intros x Hx ->. done.
  - rewrite decide_True by congruence. by rewrite IH.
Qed.

Lemma exclude_one_NoDup names warned y :
  NoDup names ->
  fst (Fixers.exclude_one (names, warned) y) = filter (fun z => z ≠ y) names.
Proof.
  intros Hnd. cbn. case_bool_decide as Hin; cbn.
  - by apply list_remove_NoDup.
  - symmetry. apply filter_all. intros x Hx ->. done.
Qed.

(** Every name loses one listing for each time it is excluded, as long as it
    has listings left: a fixer listed twice survives one exclusion. *)
Theorem build_fixer_names_occurrences package_fixers exclude x :
  Fixers.occurrences x
    (fst (Fixers.build_fixer_names package_fixers (Some exclude)))
  = Fixers.occurrences x package_fixers - Fixers.occurrences x exclude.
Proof.
  rewrite build_fixer_names_foldl.
  generalize (@nil string) as warned. revert package_fixers.
  induction exclude as [|y exclude IH]; intros names warned; cbn [foldl].
  - unfold Fixers.occurrences. cbn. lia.
  - destruct (Fixers.exclude_one (names, warned) y) as [names' warned'] eqn:He.
    rewrite IH, occurrences_cons.
    cbn in He. case_bool_decide as Hin; injection He as <- <-.
    + rewrite occurrences_list_remove by done. lia.
    + destruct (decide (y = x)) as [->|]; [|done].
      rewrite occurrences_zero by done. lia.
Qed.

Lemma foldl_exclude_one_accounting exclude names warned :
  let '(fixer_names, warned') :=
    foldl Fixers.exclude_one (names, warned) exclude in
  length warned' + length names
  = length warned + length exclude + length fixer_names.
Proof.
  revert names warned.
  induction exclude as [|y exclude IH]; intros names warned; cbn [foldl].
  - cbn. lia.
  - destruct (Fixers.exclude_one (names, warned) y) as [names' warned'] eqn:He.
    specialize (IH names' warned').
    destruct (foldl _ _ _) as [fixer_names warned''].
    cbn in He. case_bool_decide as Hin; injection He as <- <-.
    + apply length_list_remove in Hin. cbn. lia.
    + rewrite length_app in IH. cbn in *. lia.
Qed.

(** Each excluded name either takes one name off the list or draws one
    warning. *)
Theorem build_fixer_names_accounting package_fixers exclude :
  let '(fixer_names, warned) :=
    Fixers.build_fixer_names package_fixers (Some exclude) in
  length warned + length package_fixers
  = length exclude + length fixer_names.
Proof.
  rewrite build_fixer_names_foldl.
  pose proof (foldl_exclude_one_accounting exclude package_fixers []) as H.
  destruct (foldl _ _ _) as [fixer_names warned]. cbn in H. lia.
Qed.

(** When the package lists no fixer twice, the result is the package list
    without the excluded names, in the order of the package list; so none
    of the excluded names is left. *)
Theorem build_fixer_names_filter package_fixers exclude :
  NoDup package_fixers ->
  fst (Fixers.build_fixer_names package_fixers (Some exclude))
  = filter (fun name => name ∉ exclude) package_fixers.
Proof.
  rewrite build_fixer_names_foldl.
  generalize (@nil string) as warned. revert package_fixers.
  induction exclude as [|y exclude IH]; intros names warned Hnd; cbn [foldl].
  - cbn. symmetry. apply filter_all. intros x _. apply not_elem_of_nil.
  - destruct (Fixers.exclude_one (names, warned) y) as [names' warned'] eqn:He.
    pose proof (exclude_one_NoDup names warned y Hnd) as Hone.
    rewrite He in Hone. cbn in Hone. subst names'.
    rewrite IH by by apply NoDup_filter.
    rewrite list_filter_filter. apply list_filter_iff.
    intros x. rewrite not_elem_of_cons. tauto.
Qed.

Lemma build_fixer_names_filter_witness :
  fst (Fixers.build_fixer_names Fixers.sample_package_fixers
         (Some Fixers.exclude_fixers))
  = ["lib2to3.fixes.fix_dict"; "lib2to3.fixes.fix_print"].
Proof.
  rewrite (build_fixer_names_filter Fixers.sample_package_fixers
             Fixers.exclude_fixers).
  - vm_compute. reflexivity.
  - apply (bool_decide_unpack (NoDup Fixers.sample_package_fixers)).
    vm_compute. exact I.
Defined.

(** ** More on the idle callback *)

(** The idle callback constructs no application and installs nothing: it
    leaves the Qt instance, the session's hook and the [pre_prompt_hook]
    callbacks alone; of the flag cells it writes at most its own, and only
    [True], when it caught an interrupt; and it either leaves the manager's
    hook alone or clears it. *)
Theorem inputhook_qt4_writes_only_flag_and_manager
    platform env h fuel st r st' :
  inputhook_qt4 platform env h fuel st = Some (r, st') ->
  qt_instance st' = qt_instance st /\
  qt_constructed st' = qt_constructed st /\
  ip_inputhook_qt4 st' = ip_inputhook_qt4 st /\
  pre_prompt_hook st' = pre_prompt_hook st /\
  (forall h', h' <> h -> got_kbdint st' !! h' = got_kbdint st !! h') /\
  (got_kbdint st' !! h = got_kbdint st !! h \/
   caught_interrupt platform env fuel st = true /\
   got_kbdint st' !! h = Some true) /\
  (mgr_inputhook st' = mgr_inputhook st \/ mgr_inputhook st' = None).
Proof.
  intros Hi.
  apply inputhook_qt4_frame in Hi as (Hq & Hc & Hip & Hpp & Hflag & Hm).
  repeat (split; [done|]). rewrite Hflag.
  destruct (caught_interrupt platform env fuel st).
  - split; [|split; [|done]].
    + intros h' Hne. by rewrite lookup_insert_ne.
    + right. split; [done|]. apply lookup_insert_eq.
  - split; [|split]; auto.
Qed.

Lemma inputhook_qt4_writes_only_flag_and_manager_witness :
  qt_constructed interrupted_session = qt_constructed enabled_session /\
  pre_prompt_hook interrupted_session = pre_prompt_hook enabled_session /\
  (mgr_inputhook interrupted_session = mgr_inputhook enabled_session \/
   mgr_inputhook interrupted_session = None).
Proof.
  destruct (inputhook_qt4_writes_only_flag_and_manager
              "linux" env_interrupt_in_exec 0 0 enabled_session
              (Returned 0) interrupted_session)
    as (_ & Hc & _ & Hpp & _ & _ & Hm); [vm_compute; reflexivity|].
  done.
Defined.

(** An interrupt followed by a prompt puts the hook back: after the idle
    callback caught [KeyboardInterrupt], [preprompthook_qt4] hands the hook
    to the manager again as its last host call and leaves the flag clear. *)
Theorem interrupt_then_prompt_restores_hook platform env h fuel st r st1 :
  caught_interrupt platform env fuel st = true ->
  inputhook_qt4 platform env h fuel st = Some (r, st1) ->
  mgr_inputhook st1 = None /\
  mgr_inputhook (preprompthook_qt4 h st1) = Some h /\
  got_kbdint (preprompthook_qt4 h st1) !! h = Some false /\
  trace (preprompthook_qt4 h st1) = trace st1 ++ [set_inputhook_called h].
Proof.
  unfold caught_interrupt. rewrite inputhook_qt4_eq.
  destruct (try_block platform env fuel st) as [[[[]|v|[|n]] s]|]; try done.
  intros _ [= <- <-]. split; [done|].
  unfold preprompthook_qt4.
  assert (got_kbdint (after_interrupt h s) !! h = Some true) as ->
    by apply lookup_insert_eq.
  cbn. repeat split. apply lookup_insert_eq.
Qed.

Lemma interrupt_then_prompt_restores_hook_witness :
  mgr_inputhook interrupted_session = None /\
  mgr_inputhook (preprompthook_qt4 0 interrupted_session) = Some 0 /\
  got_kbdint (preprompthook_qt4 0 interrupted_session) !! 0 = Some false /\
  trace (preprompthook_qt4 0 interrupted_session)
    = trace interrupted_session ++ [set_inputhook_called 0].
Proof.
  apply (interrupt_then_prompt_restores_hook
           "linux" env_interrupt_in_exec 0 0 enabled_session (Returned 0));
    vm_compute; reflexivity.
Defined.

(** An exception followed by a prompt does not put the hook back: the
    handler of unexpected exceptions leaves the flag clear, so
    [preprompthook_qt4] changes nothing and the manager stays without
    hook. *)
Theorem exception_then_prompt_leaves_hook_cleared
    platform env h fuel st name s r st1 :
  try_block platform env fuel st = Some (Raise (OtherException name), s) ->
  got_kbdint st !! h = Some false ->
  inputhook_qt4 platform env h fuel st = Some (r, st1) ->
  mgr_inputhook st1 = None /\
  preprompthook_qt4 h st1 = st1.
Proof.
  intros Hb Hflag. rewrite inputhook_qt4_eq, Hb. intros [= <- <-].
  split; [done|].
  apply try_block_spec in Hb as ((_ & _ & _ & _ & Hf & _) & _).
  unfold preprompthook_qt4.
  assert (got_kbdint (after_exception (OtherException name) s) !! h
          = Some false) as Hf' by (cbn in *; by rewrite Hf).
  rewrite Hf'. by apply with_flag_id.
Qed.

Lemma exception_then_prompt_leaves_hook_cleared_witness :
  mgr_inputhook failed_session = None /\
  preprompthook_qt4 0 failed_session = failed_session.
Proof.
  eapply (exception_then_prompt_leaves_hook_cleared
            "linux" env_processEvents_raises 0 0 enabled_session);
    vm_compute; reflexivity.
Defined.

(** With input already there after the burst of [processEvents], the
    callback makes its three calls into the toolkit and no more, on either
    platform and whatever the fuel: no timer, no notifier, no [exec_]. *)
Theorem inputhook_qt4_skips_wait_when_input_ready platform env h fuel st :
  is_Some (qt_instance st) ->
  all_return env (clock st) (clock st + 2) ->
  env (clock st + 2) = Returns true ->
  inputhook_qt4 platform env h fuel st
  = Some (Returned 0,
          host allow_CTRL_C_called
            (tick (tick (tick (host allow_CTRL_C_called st))))).
Proof.
  intros [a Ha] Hall Hready.
  destruct (Hall (clock st)) as [b0 E0]; [lia|].
  destruct (Hall (S (clock st))) as [b1 E1]; [lia|].
  replace (clock st + 2) with (S (S (clock st))) in Hready by lia.
  rewrite inputhook_qt4_eq.
  unfold try_block, bind, allow_CTRL_C, do_,
    QCoreApplication_instance, processEvents, stdin_ready, toolkit, get,
    return_, pure, bind.
  cbn [clock host tick id]. rewrite E0. cbn -[String.eqb].
  rewrite Ha. cbn -[String.eqb]. rewrite E1. cbn -[String.eqb].
  rewrite Hready. reflexivity.
Qed.

Lemma inputhook_qt4_skips_wait_when_input_ready_witness :
  inputhook_qt4 "win32" env_ready 0 0 enabled_session
  = Some (Returned 0,
          host allow_CTRL_C_called
            (tick (tick (tick (host allow_CTRL_C_called enabled_session))))).
Proof.
  apply inputhook_qt4_skips_wait_when_input_ready.
  - vm_compute. eauto.
  - intros k _. by exists true.
  - reflexivity.
Defined.

(** The polling loop, when nothing raises: it stops at the first check that
    finds input, having made four calls per earlier check and one for this
    one. *)
Lemma poll_until_ready env n : forall st fuel,
  n < fuel ->
  all_return env (clock st) (clock st + 4 * n) ->
  (forall j, j < n -> env (clock st + 4 * j) = Returns false) ->
  env (clock st + 4 * n) = Returns true ->
  exists st',
    poll env fuel st = Some (Done tt, st') /\
    clock st' = clock st + 4 * n + 1.
Proof.
  induction n as [|n IH]; intros st fuel Hfuel Hall Hfalse Htrue;
    (destruct fuel as [|fuel]; [lia|]).
  - replace (clock st + 4 * 0) with (clock st) in Htrue by lia.
    cbn. unfold bind, stdin_ready, toolkit, pure. rewrite Htrue.
    eexists. split; [reflexivity|]. cbn. lia.
  - pose proof (Hfalse 0 ltac:(lia)) as E0.
    replace (clock st + 4 * 0) with (clock st) in E0 by lia.
    destruct (Hall (S (clock st))) as [b1 E1]; [lia|].
    destruct (Hall (S (S (clock st)))) as [b2 E2]; [lia|].
    destruct (Hall (S (S (S (clock st))))) as [b3 E3]; [lia|].
    destruct (IH (tick (tick (tick (tick st)))) fuel) as (st' & Hp & Hc).
    + lia.
    + intros k Hk. apply Hall. cbn in Hk. lia.
    + intros j Hj. cbn [clock tick].
      replace (S (S (S (S (clock st)))) + 4 * j)
        with (clock st + 4 * S j) by lia.
      apply Hfalse. lia.
    + cbn [clock tick].
      by replace (S (S (S (S (clock st)))) + 4 * n)
        with (clock st + 4 * S n) by lia.
    + exists st'. split; [|cbn in Hc; lia].
      change (poll env (S fuel) st) with
        (bind (stdin_ready env) (fun ready =>
           if ready then pure tt
           else timer_start env ;;; exec_ env ;;; timer_stop env ;;;
                poll env fuel) st).
      unfold bind, stdin_ready, timer_start, exec_, timer_stop, toolkit, pure.
      rewrite E0. cbn -[poll]. rewrite E1. cbn -[poll].
      rewrite E2. cbn -[poll]. rewrite E3. cbn -[poll]. exact Hp.
Qed.

(** On win32, when nothing raises and input is found at check [n] of the
    polling loop, the callback returns after [7 + 4 * n] calls into the
    toolkit, that is after [n] turns of [timer.start], [app.exec_],
    [timer.stop] and no more, with the timer disconnected; any fuel above
    [n] gives this run. *)
Theorem inputhook_qt4_polls_until_input env h fuel st n :
  is_Some (qt_instance st) ->
  all_return env (clock st) (clock st + 7 + 4 * n) ->
  env (clock st + 2) = Returns false ->
  (forall j, j < n -> env (poll_check st j) = Returns false) ->
  env (poll_check st n) = Returns true ->
  n < fuel ->
  exists st',
    inputhook_qt4 "win32" env h fuel st = Some (Returned 0, st') /\
    clock st' = clock st + 7 + 4 * n /\
    quit_slots st' = quit_slots st /\
    trace st' = trace st ++ [allow_CTRL_C_called; allow_CTRL_C_called].
Proof.
  intros [a Ha] Hall Hnot Hfalse Htrue Hfuel.
  assert (exists st1,
            try_block "win32" env fuel st = Some (Done tt, st1) /\
            clock st1 = clock st + 7 + 4 * n) as (st1 & Hb & Hc).
  { destruct (Hall (clock st)) as [b0 E0]; [lia|].
    destruct (Hall (S (clock st))) as [b1 E1]; [lia|].
    replace (clock st + 2) with (S (S (clock st))) in Hnot by lia.
    destruct (Hall (S (S (S (clock st))))) as [b3 E3]; [lia|].
    destruct (Hall (S (S (S (S (clock st)))))) as [b4 E4]; [lia|].
    unfold try_block, bind, allow_CTRL_C, do_,
      QCoreApplication_instance, processEvents, stdin_ready, new_watcher,
      connect, disconnect, toolkit, get, return_, pure, bind.
    cbn [clock host tick id]. rewrite E0. cbn. rewrite Ha. cbn.
    rewrite E1. cbn. rewrite Hnot. cbn. rewrite E3. cbn. rewrite E4. cbn.
    match goal with |- context [poll env fuel ?s] =>
      destruct (poll_until_ready env n s fuel) as (sp & -> & Hcp) end.
    - done.
    - intros k Hk. apply Hall. cbn in Hk. lia.
    - intros j Hj. cbn [clock tick with_slots host].
      unfold poll_check in Hfalse.
      replace (S (S (S (S (S (clock st))))) + 4 * j)
        with (clock st + 5 + 4 * j) by lia.
      by apply Hfalse.
    - cbn [clock tick with_slots host]. unfold poll_check in Htrue.
      by replace (S (S (S (S (S (clock st))))) + 4 * n)
        with (clock st + 5 + 4 * n) by lia.
    - cbn in Hcp. destruct (Hall (clock sp)) as [b5 E5]; [lia|].
      rewrite E5. cbn. eexists. split; [reflexivity|]. cbn. lia. }
  rewrite inputhook_qt4_eq, Hb. eexists. split; [reflexivity|].
  apply try_block_spec in Hb as ((_ & _ & _ & _ & _ & _ & _ & Htr) & _ & Hq).
  cbn in *. rewrite Htr, <- app_assoc. repeat split; [done|].
  apply Hq. by intros e.
Qed.

Lemma inputhook_qt4_polls_until_input_witness :
  exists st',
    inputhook_qt4 "win32" env_input_after_two_polls 0 3 enabled_session
      = Some (Returned 0, st') /\
    clock st' = clock enabled_session + 7 + 4 * 2 /\
    quit_slots st' = quit_slots enabled_session /\
    trace st' =
      trace enabled_session ++ [allow_CTRL_C_called; allow_CTRL_C_called].
Proof.
  apply (inputhook_qt4_polls_until_input
           env_input_after_two_polls 0 3 enabled_session 2).
  - vm_compute. eauto.
  - intros k _. unfold env_input_after_two_polls.
    destruct k as [|[|[|[|[|[|[|[|[|[|k]]]]]]]]]]; eauto.
  - reflexivity.
  - intros [|[|j]] Hj; [reflexivity | reflexivity | lia].
  - reflexivity.
  - lia.
Defined.

(** Off win32 the callback runs no loop: it returns for every oracle,
    without fuel, after at least one and at most seven calls into the
    toolkit. *)
Theorem inputhook_qt4_notifier_bounded platform env h st :
  String.eqb platform "win32" = false ->
  exists st',
    inputhook_qt4 platform env h 0 st = Some (Returned 0, st') /\
    clock st < clock st' <= clock st + 7.
Proof.
  intros Hplat.
  assert (exists c st1,
            try_block platform env 0 st = Some (c, st1) /\
            clock st < clock st1 <= clock st + 7) as (c & st1 & Hb & Hc).
  { unfold try_block, bind, allow_CTRL_C, do_,
      QCoreApplication_instance, processEvents, stdin_ready, new_watcher,
      connect, disconnect, exec_, toolkit, get, return_, pure, bind.
    cbn [clock host tick id]. rewrite Hplat.
    destruct (env (clock st)) as [b0|e]; cbn;
      [|do 2 eexists; split; [reflexivity | cbn; lia]].
    destruct (qt_instance st) as [a|]; cbn;
      [|do 2 eexists; split; [reflexivity | cbn; lia]].
    destruct (env (S (clock st))) as [b1|e]; cbn;
      [|do 2 eexists; split; [reflexivity | cbn; lia]].
    destruct (env (S (S (clock st)))) as [[|]|e]; cbn;
      try (do 2 eexists; split; [reflexivity | cbn; lia]).
    destruct (env (S (S (S (clock st))))) as [b3|e]; cbn;
      [|do 2 eexists; split; [reflexivity | cbn; lia]].
    destruct (env (S (S (S (S (clock st)))))) as [b4|e]; cbn;
      [|do 2 eexists; split; [reflexivity | cbn; lia]].
    destruct (env (S (S (S (S (S (clock st))))))) as [b5|e]; cbn;
      [|do 2 eexists; split; [reflexivity | cbn; lia]].
    destruct (env (S (S (S (S (S (S (clock st)))))))) as [b6|e]; cbn;
      do 2 eexists; (split; [reflexivity | cbn; lia]). }
  rewrite inputhook_qt4_eq, Hb.
  apply try_block_spec in Hb as (_ & Hcomp & _).
  destruct Hcomp as [-> | [-> | [[|name] ->]]];
    eexists; (split; [reflexivity | cbn; lia]).
Qed.

Lemma inputhook_qt4_notifier_bounded_witness :
  exists st',
    inputhook_qt4 "linux" env_interrupt_in_exec 0 0 enabled_session
      = Some (Returned 0, st') /\
    clock enabled_session < clock st' <= clock enabled_session + 7.
Proof.
  apply (inputhook_qt4_notifier_bounded "linux"). reflexivity.
Defined.

(** ** More on installing *)

(** [create_inputhook_qt4] makes no call to the manager, to the signal
    primitives or into the event loop: handing the returned hook to
    [mgr.set_inputhook] is left to its caller. *)
Theorem create_inputhook_qt4_leaves_manager_alone app st :
  let st' := snd (create_inputhook_qt4 app st) in
  mgr_inputhook st' = mgr_inputhook st /\
  ctrl_c_allowed st' = ctrl_c_allowed st /\
  trace st' = trace st /\
  quit_slots st' = quit_slots st /\
  clock st' = clock st.
Proof.
  unfold create_inputhook_qt4, resolve_app, new_QApplication.
  destruct app as [a|]; [|destruct (qt_instance st) as [q|]]; cbn;
    by destruct (ip_inputhook_qt4 st).
Qed.

(** However often [create_inputhook_qt4] is called in a session, and
    whatever else happens, there is at most one restoration callback and one
    flag, and the manager's hook is either none or the session's hook. *)
Theorem session_keeps_one_closure_pair st acts st' :
  fresh_session st ->
  run acts st = Some st' ->
  length (pre_prompt_hook st') <= 1 /\
  size (got_kbdint st') <= 1 /\
  (mgr_inputhook st' = None \/ mgr_inputhook st' = ip_inputhook_qt4 st') /\
  (forall h, h ∈ pre_prompt_hook st' <-> ip_inputhook_qt4 st' = Some h).
Proof.
  intros Hfresh Hrun.
  assert (session_inv st false) as Hinv by (by left).
  apply (run_session_inv _ _ _ _ Hrun) in Hinv
    as [[(Hip & Hpp & Hflag & Hm) _] | (h & Hip & Hpp & Hflag & Hm)].
  - rewrite Hip, Hpp, Hflag, Hm, map_size_empty. cbn.
    repeat split; auto; intros H; [by apply elem_of_nil in H | done].
  - rewrite Hip, Hpp, Hflag, map_size_singleton. cbn.
    repeat split; auto.
    + intros H. apply list_elem_of_singleton in H. by subst.
    + intros [= ->]. by apply list_elem_of_singleton.
Qed.

Lemma session_keeps_one_closure_pair_witness :
  let acts :=
    [Install None; Enable; Install (Some (GivenApp 3));
     Idle "linux" env_interrupt_in_exec 0; Install None; Prompt] in
  exists st',
    run acts new_session = Some st' /\
    length (pre_prompt_hook st') <= 1 /\
    size (got_kbdint st') <= 1.
Proof.
  cbn zeta.
  destruct (run [Install None; Enable; Install (Some (GivenApp 3));
                 Idle "linux" env_interrupt_in_exec 0; Install None; Prompt]
              new_session) as [st'|] eqn:Hrun; [|by vm_compute in Hrun].
  exists st'. split; [done|].
  edestruct (session_keeps_one_closure_pair new_session)
    as (Hpp & Hflag & _); [by repeat split | exact Hrun | done].
Defined.

Lemma step_constructs_at_most_one a st st' :
  step a st = Some st' ->
  qt_constructed st' = qt_constructed st \/
  qt_instance st = None /\
  exists q, qt_constructed st' = qt_constructed st ++ [q] /\
            qt_instance st' = Some q.
Proof.
  destruct a as [app| | |platform env fuel|]; cbn.
  - intros [= <-].
    unfold create_inputhook_qt4, resolve_app, new_QApplication.
    destruct app as [a|]; [|destruct (qt_instance st) as [q|] eqn:Hq]; cbn;
      destruct (ip_inputhook_qt4 st); cbn; eauto 10.
  - destruct (ip_inputhook_qt4 st); [|done]. intros [= <-]. by left.
  - intros [= <-]. by left.
  - destruct (mgr_inputhook st) as [h'|]; [|done].
    destruct (inputhook_qt4 _ _ _ _ _) as [[r s]|] eqn:Hi; [|done].
    intros [= <-]. apply inputhook_qt4_frame in Hi as (_ & -> & _). by left.
  - intros [= <-]. unfold run_pre_prompt_hook.
    destruct (foldl_preprompthook_qt4_frame (pre_prompt_hook st) st)
      as (_ & -> & _). by left.
Qed.

(** A session constructs at most one [QApplication], however often
    [create_inputhook_qt4] is called and with whatever arguments, and none
    at all when there is an application instance to begin with. *)
Theorem session_constructs_at_most_one_application acts : forall st st',
  run acts st = Some st' ->
  (qt_constructed st' = qt_constructed st \/
   qt_instance st = None /\
   exists q, qt_constructed st' = qt_constructed st ++ [q]) /\
  (is_Some (qt_instance st) -> qt_constructed st' = qt_constructed st).
Proof.
  induction acts as [|a acts IH]; intros st st'; cbn.
  - intros [= <-]. auto.
  - destruct (step a st) as [s|] eqn:Hs; [|done]. intros Hrun.
    destruct (IH _ _ Hrun) as [Hrest Hkeep].
    destruct (step_constructs_at_most_one _ _ _ Hs)
      as [Hsame | (Hnone & q & Happ & Hq)].
    + split.
      * rewrite <- Hsame.
        destruct Hrest as [? | (Hn & q & ?)]; [by left|].
        destruct (qt_instance st) as [q0|] eqn:Hq0; [|eauto].
        by rewrite (step_keeps_instance _ _ _ _ Hs Hq0) in Hn.
      * intros [q0 Hq0]. rewrite <- Hsame. apply Hkeep.
        rewrite (step_keeps_instance _ _ _ _ Hs Hq0). eauto.
    + split; [|intros [q0 Hq0]; congruence].
      right. split; [done|]. exists q.
      rewrite Hkeep by (rewrite Hq; eauto). done.
Qed.

Lemma session_constructs_at_most_one_application_witness :
  let acts :=
    [Install (Some (GivenApp 3)); Install None; Enable;
     Idle "linux" env_ready 0; Install None] in
  exists st',
    run acts new_session = Some st' /\
    qt_constructed st' = [QApplication 0].
Proof.
  cbn zeta.
  destruct (run [Install (Some (GivenApp 3)); Install None; Enable;
                 Idle "linux" env_ready 0; Install None] new_session)
    as [st'|] eqn:Hrun; [|by vm_compute in Hrun].
  exists st'. split; [done|].
  destruct (session_constructs_at_most_one_application _ _ _ Hrun)
    as [[Hsame | (_ & q & Hq)] _].
  - vm_compute in Hrun. injection Hrun as <-. by vm_compute in Hsame.
  - vm_compute in Hrun. injection Hrun as <-. vm_compute. reflexivity.
Defined.

(** ** The path of the cache file *)

Section Strings.

Implicit Types (s t x : string) (c : ascii).

Lemma app_cons c s t : String c s +:+ t = String c (s +:+ t).
Proof. reflexivity. Qed.

Lemma app_nil_l s : "" +:+ s = s.
Proof. reflexivity. Qed.

Lemma app_nil_r s : s +:+ "" = s.
Proof. induction s as [|c s IH]; [done|]. by rewrite app_cons, IH. Qed.

Lemma app_assoc s t x : (s +:+ t) +:+ x = s +:+ t +:+ x.
Proof. induction s as [|c s IH]; [done|]. by rewrite !app_cons, IH. Qed.

Lemma length_app s t :
  String.length (s +:+ t) = String.length s + String.length t.
Proof. induction s as [|c s IH]; [done|]. rewrite app_cons. cbn. by rewrite IH. Qed.

Lemma contains_app c s t :
  Loader.contains c (s +:+ t) = Loader.contains c s || Loader.contains c t.
Proof.
  induction s as [|c' s IH]; [done|]. rewrite app_cons. cbn.
  by rewrite IH, orb_assoc.
Qed.

Lemma rsplit_no_sep t :
  Loader.contains "/" t = false -> Loader.rsplit t = ("", t).
Proof.
  induction t as [|c t IH]; [done|]. cbn.
  intros [Hc Ht]%orb_false_iff. by rewrite (IH Ht), Hc.
Qed.

Lemma rsplit_at_last_sep x t :
  Loader.contains "/" t = false ->
  Loader.rsplit (x +:+ "/" +:+ t) = (x +:+ "/", t).
Proof.
  intros Ht. induction x as [|c x IH].
  - rewrite !app_nil_l, app_cons, app_nil_l. cbn. by rewrite rsplit_no_sep.
  - rewrite (app_cons c x). cbn [Loader.rsplit]. rewrite IH.
    by destruct x.
Qed.

Lemma rsplit_tail p h t :
  Loader.rsplit p = (h, t) -> Loader.contains "/" t = false /\ p = h +:+ t.
Proof.
  revert h t. induction p as [|c p IH]; intros h t; cbn.
  - by intros [= <- <-].
  - destruct (Loader.rsplit p) as [h' t'].
    destruct (IH h' t' eq_refl) as [Ht' ->].
    destruct h' as [|c' h'].
    + destruct (Ascii.eqb c "/") eqn:Hc; intros [= <- <-].
      * done.
      * cbn. by rewrite Hc.
    + by intros [= <- <-].
Qed.

Lemma rstrip_sep s : Loader.rstrip (s +:+ "/") = Loader.rstrip s.
Proof.
  induction s as [|c s IH]; [done|].
  rewrite app_cons. cbn [Loader.rstrip]. by rewrite IH.
Qed.

Lemma rstrip_id s : Loader.endswith_sep s = false -> Loader.rstrip s = s.
Proof.
  induction s as [|c s IH]; [done|]. cbn.
  destruct s as [|c' s].
  - cbn. by intros ->.
  - intros H. rewrite (IH H). done.
Qed.

Lemma all_sep_endswith s :
  Loader.all_sep s = true -> s = "" \/ Loader.endswith_sep s = true.
Proof.
  induction s as [|c s IH]; [by left|]. cbn.
  intros [Hc Hs]%andb_true_iff. right.
  destruct s as [|c' s]; [done|]. by destruct (IH Hs).
Qed.

Lemma all_sep_app_sep s : Loader.all_sep (s +:+ "/") = Loader.all_sep s.
Proof.
  induction s as [|c s IH]; [done|]. rewrite app_cons. cbn. by rewrite IH.
Qed.

Lemma endswith_sep_app x t :
  t <> "" -> Loader.endswith_sep (x +:+ t) = Loader.endswith_sep t.
Proof.
  intros Ht. induction x as [|c x IH]; [done|].
  rewrite app_cons. cbn [Loader.endswith_sep]. rewrite IH.
  destruct (x +:+ t) eqn:E; [|done].
  destruct x; [by rewrite app_nil_l in E | by rewrite app_cons in E].
Qed.

Lemma startswith_sep_no_sep s :
  Loader.contains "/" s = false -> Loader.startswith_sep s = false.
Proof. destruct s as [|c s]; [done|]. cbn. by intros [? _]%orb_false_iff. Qed.

Lemma partition_dot_at_dot b r :
  Loader.contains "." b = false ->
  Loader.partition_dot (b +:+ "." +:+ r) = (b, ".", r).
Proof.
  induction b as [|c b IH]; [done|]. rewrite app_cons. cbn.
  intros [-> Hb]%orb_false_iff. by rewrite (IH Hb).
Qed.

Lemma partition_dot_no_dot b :
  Loader.contains "." b = false -> Loader.partition_dot b = (b, "", "").
Proof.
  induction b as [|c b IH]; [done|]. cbn.
  intros [-> Hb]%orb_false_iff. by rewrite (IH Hb).
Qed.

Lemma partition_dot_parts t b sp r :
  Loader.partition_dot t = (b, sp, r) ->
  t = b +:+ sp +:+ r /\ String.length sp <= 1 /\
  (Loader.contains "/" t = false ->
   Loader.contains "/" b = false /\ Loader.contains "/" sp = false /\
   Loader.contains "/" r = false).
Proof.
  revert b sp r. induction t as [|c t IH]; intros b sp r; cbn.
  - intros ?; simplify_eq. split; [done|]. split; [cbn; lia | done].
  - destruct (Ascii.eqb c ".") eqn:Hc.
    + intros ?; simplify_eq. apply Ascii.eqb_eq in Hc as ->.
      split; [done|]. split; [cbn; lia|].
      by intros [_ ?]%orb_false_iff.
    + destruct (Loader.partition_dot t) as [[b' sp'] r'].
      destruct (IH b' sp' r' eq_refl) as (-> & Hlen & Hsep).
      intros ?; simplify_eq. split; [done|]. split; [done|].
      intros [Hc' Ht]%orb_false_iff. destruct (Hsep Ht) as (Hb & ? & ?).
      split; [|done]. cbn. by rewrite Hc', Hb.
Qed.

Lemma join_one_relative path b :
  Loader.startswith_sep b = false ->
  Loader.join_one path b
  = (if String.eqb path "" || Loader.endswith_sep path
     then path else path +:+ "/") +:+ b.
Proof.
  intros Hb. unfold Loader.join_one. rewrite Hb.
  destruct (_ || _); [done | by rewrite app_assoc].
Qed.

(** The directory part in front of [__pycache__]. *)
Lemma os_path_join_pycache h f :
  Loader.startswith_sep f = false ->
  Loader.os_path_join h ["__pycache__"; f]
  = (if String.eqb h "" || Loader.endswith_sep h then h else h +:+ "/")
    +:+ "__pycache__" +:+ "/" +:+ f.
Proof.
  intros Hf. unfold Loader.os_path_join. cbn [foldl].
  rewrite (join_one_relative h "__pycache__") by reflexivity.
  rewrite join_one_relative by done.
  set (d := if String.eqb h "" || Loader.endswith_sep h
            then h else h +:+ "/").
  rewrite endswith_sep_app by done.
  assert (Loader.endswith_sep "__pycache__" = false) as -> by reflexivity.
  assert (String.eqb (d +:+ "__pycache__") "" = false) as ->.
  { apply String.eqb_neq. intros H. apply (f_equal String.length) in H.
    rewrite length_app in H. cbn in H. lia. }
  cbn [orb]. by rewrite !app_assoc.
Qed.

End Strings.

Lemma cache_path_unfold path :
  Loader._2to3_cache_path path
  = Loader.os_path_join (fst (Loader.os_path_split path))
      ["__pycache__"; cache_filename (snd (Loader.os_path_split path))].
Proof.
  unfold Loader._2to3_cache_path, cache_filename.
  destruct (Loader.os_path_split path) as [head tail]. cbn [fst snd].
  by destruct (Loader.partition_dot tail) as [[b sp] r].
Qed.

Lemma cache_filename_no_sep tail :
  Loader.contains "/" tail = false ->
  Loader.contains "/" (cache_filename tail) = false /\
  String.length tail + 7 <= String.length (cache_filename tail).
Proof.
  intros Ht. unfold cache_filename.
  destruct (Loader.partition_dot tail) as [[b sp] r] eqn:Hp.
  apply partition_dot_parts in Hp as (-> & Hlen & Hsep).
  destruct (Hsep Ht) as (Hb & Hsp & Hr).
  rewrite !contains_app, Hb, Hsp, Hr, !length_app. split; [done|].
  cbn. lia.
Qed.

Lemma os_path_split_at_last_sep head tail :
  Loader.endswith_sep head = false ->
  Loader.contains "/" tail = false ->
  Loader.os_path_split (head +:+ "/" +:+ tail)
  = (if String.eqb head "" then "/" else head, tail).
Proof.
  intros Hh Ht. unfold Loader.os_path_split.
  rewrite rsplit_at_last_sep by done.
  rewrite all_sep_app_sep, rstrip_sep, rstrip_id by done.
  destruct head as [|c head]; [done|].
  destruct (Loader.all_sep (String c head)) eqn:Hall; [|done].
  apply all_sep_endswith in Hall as [?|Hall]; [done | congruence].
Qed.

Lemma cache_path_in_directory head tail :
  Loader.endswith_sep head = false ->
  Loader.contains "/" tail = false ->
  Loader._2to3_cache_path (head +:+ "/" +:+ tail)
  = head +:+ "/__pycache__/" +:+ cache_filename tail.
Proof.
  intros Hh Ht.
  rewrite cache_path_unfold, os_path_split_at_last_sep by done.
  cbn [fst snd].
  rewrite os_path_join_pycache
    by (apply startswith_sep_no_sep, cache_filename_no_sep, Ht).
  destruct head as [|c head]; [done|].
  change (String.eqb (String c head) "") with false. cbn match.
  change (String.eqb (String c head) "") with false.
  rewrite Hh. cbn [orb]. by rewrite app_assoc.
Qed.

(** A file [base.rest] in a directory gets the cache file
    [base.ipy2to3.rest] in the [__pycache__] directory beside it; the tag
    goes after the first dot of the name. *)
Theorem cache_path_of_dotted_name head base rest :
  Loader.endswith_sep head = false ->
  Loader.contains "/" base = false ->
  Loader.contains "." base = false ->
  Loader.contains "/" rest = false ->
  Loader._2to3_cache_path (head +:+ "/" +:+ base +:+ "." +:+ rest)
  = head +:+ "/__pycache__/" +:+ base +:+ ".ipy2to3." +:+ rest.
Proof.
  intros Hh Hb Hdot Hr.
  rewrite cache_path_in_directory;
    [|done | by rewrite !contains_app, Hb, Hr].
  unfold cache_filename. by rewrite partition_dot_at_dot.
Qed.

Lemma cache_path_of_dotted_name_witness :
  Loader._2to3_cache_path "/repo/IPython/core.tests.py"
  = "/repo/IPython/__pycache__/core.ipy2to3.tests.py".
Proof.
  apply (cache_path_of_dotted_name "/repo/IPython" "core" "tests.py");
    reflexivity.
Defined.

(** A file whose name has no dot gets the tag glued to its name, with no
    dot on either side. *)
Theorem cache_path_of_undotted_name head name :
  Loader.endswith_sep head = false ->
  Loader.contains "/" name = false ->
  Loader.contains "." name = false ->
  Loader._2to3_cache_path (head +:+ "/" +:+ name)
  = head +:+ "/__pycache__/" +:+ name +:+ "ipy2to3".
Proof.
  intros Hh Hn Hdot.
  rewrite cache_path_in_directory by done.
  unfold cache_filename. rewrite partition_dot_no_dot by done.
  by rewrite !app_nil_l, app_nil_r.
Qed.

Lemma cache_path_of_undotted_name_witness :
  Loader._2to3_cache_path "/repo/scripts/ipython"
  = "/repo/scripts/__pycache__/ipythonipy2to3".
Proof.
  apply (cache_path_of_undotted_name "/repo/scripts" "ipython"); reflexivity.
Defined.

(** The cache path ends in a component made from the last component of the
    path, and that component is at least seven characters longer. *)
Lemma cache_path_last_component path h tail :
  Loader.rsplit path = (h, tail) ->
  exists d,
    Loader.rsplit (Loader._2to3_cache_path path)
    = (d +:+ "/", cache_filename tail) /\
    String.length tail + 7 <= String.length (cache_filename tail).
Proof.
  intros Hsplit. rewrite cache_path_unfold. unfold Loader.os_path_split.
  rewrite Hsplit. cbn [fst snd].
  destruct (rsplit_tail _ _ _ Hsplit) as [Ht _].
  destruct (cache_filename_no_sep tail Ht) as [Hf Hlen].
  rewrite os_path_join_pycache by by apply startswith_sep_no_sep.
  rewrite <- app_assoc. eexists. split; [|exact Hlen].
  by apply rsplit_at_last_sep.
Qed.

Lemma cache_path_neq path : Loader._2to3_cache_path path <> path.
Proof.
  destruct (Loader.rsplit path) as [h tail] eqn:Hsplit.
  destruct (cache_path_last_component _ _ _ Hsplit) as (d & Hcache & Hlen).
  intros Heq. rewrite Heq, Hsplit in Hcache. injection Hcache as _ Htail.
  apply (f_equal String.length) in Htail. lia.
Qed.

(** The cache file is never the source file itself: whatever the path, the
    last component of the cache path is at least seven characters longer
    than the last component of the path. *)
Theorem cache_path_differs_from_path path :
  Loader._2to3_cache_path path <> path /\
  String.length (snd (Loader.rsplit path)) + 7
  <= String.length (snd (Loader.rsplit (Loader._2to3_cache_path path))).
Proof.
  destruct (Loader.rsplit path) as [h tail] eqn:Hsplit.
  destruct (cache_path_last_component _ _ _ Hsplit) as (d & Hcache & Hlen).
  split.
  - intros Heq. rewrite Heq, Hsplit in Hcache. injection Hcache as _ Htail.
    apply (f_equal String.length) in Htail. lia.
  - by rewrite Hcache.
Qed.

(** ** [get_data] and the cache *)

Lemma drop_last_snoc s c : Loader.drop_last (s +:+ String c "") = s.
Proof.
  induction s as [|c' s IH]; [done|].
  rewrite app_cons. cbn [Loader.drop_last]. rewrite IH.
  destruct (s +:+ String c "") eqn:E; [|done].
  destruct s; [by rewrite app_nil_l in E | by rewrite app_cons in E].
Qed.

(** When the tool has nothing to change, [_refactor_2to3] gives back the
    source text as it was read: the line feed added for the parser is taken
    off again. *)
Theorem refactor_2to3_unchanged_source
    (read_python_source : list Byte.byte -> string * option string)
    (refactor_string : string -> string)
    (fs : Auto2to3.filesystem) (path : string) (f : Auto2to3.file) :
  fs !! path = Some f ->
  (forall source, refactor_string source = source) ->
  Loader._refactor_2to3 read_python_source refactor_string fs path
  = Some (read_python_source (Auto2to3.contents f)).
Proof.
  intros Hf Hid. unfold Loader._refactor_2to3. rewrite Hf.
  destruct (read_python_source (Auto2to3.contents f)) as [source encoding].
  rewrite Hid. unfold Loader.newline. by rewrite drop_last_snoc.
Qed.

Lemma refactor_2to3_unchanged_source_witness :
  Loader._refactor_2to3 Loader.sample_read (fun source => source)
    Auto2to3.sample_fs "/repo/IPython/a.py"
  = Some (Loader.sample_read [Byte.x41; Byte.x0a]).
Proof.
  apply (refactor_2to3_unchanged_source Loader.sample_read
           (fun source => source) Auto2to3.sample_fs "/repo/IPython/a.py"
           (Auto2to3.mkFile 3 [Byte.x41; Byte.x0a])).
  - vm_compute. reflexivity.
  - reflexivity.
Defined.

Section GetData.

Variable read_python_source : list Byte.byte -> string * option string.
Variable refactor_string : string -> string.
Variable encode : string -> option string -> list Byte.byte.
Variable original_path : string.

Let get_data :=
  Loader.get_data read_python_source refactor_string encode original_path.
Let cache := Loader._2to3_cache_path original_path.

(** What the loader makes of a source file. *)
Let refactored (s : Auto2to3.file) : list Byte.byte :=
  let '(source, encoding) := read_python_source (Auto2to3.contents s) in
  encode (Loader.drop_last (refactor_string (source +:+ Loader.newline)))
    encoding.

(** [get_data] writes no file but the cache file of the loader's own path;
    the source file in particular is never written. *)
Theorem get_data_writes_only_cache now fs path data fs' :
  get_data now fs path = Some (data, fs') ->
  (forall p, p <> cache -> fs' !! p = fs !! p) /\
  fs' !! original_path = fs !! original_path.
Proof.
  intros Hget.
  assert (forall p, p <> cache -> fs' !! p = fs !! p) as Hother.
  { revert Hget. unfold get_data, Loader.get_data.
    destruct (String.eqb path original_path) eqn:Hp.
    - apply String.eqb_eq in Hp as ->.
      destruct (Auto2to3._load_cached_2to3 _ _ _).1; [by intros [= <- <-]|].
      destruct (Loader._refactor_2to3 _ _ _ _) as [[output encoding]|];
        [|done].
      intros [= <- <-] p Hne. unfold Loader.set_data, Auto2to3.filesystem.
      by rewrite lookup_insert_ne.
    - destruct (Auto2to3.get_data fs path); [|done]. by intros [= <- <-]. }
  split; [done|]. apply Hother. intros H.
  by apply (cache_path_neq original_path).
Qed.

(** A source file that is missing makes [get_data] raise, cache file or
    not: a cache is never served without its source. *)
Theorem get_data_needs_source now fs :
  fs !! original_path = None ->
  get_data now fs original_path = None.
Proof.
  intros Hs. unfold get_data, Loader.get_data.
  rewrite String.eqb_refl.
  unfold Auto2to3._load_cached_2to3, Auto2to3.os_stat, Loader._refactor_2to3.
  unfold Auto2to3.filesystem in *.
  rewrite Hs. by destruct (fs !! Loader._2to3_cache_path original_path).
Qed.

(** With a cache file strictly newer than the source, [get_data] returns
    the bytes of the cache file and writes nothing, whatever the tool would
    do. *)
Lemma get_data_serves_fresh_cache now fs s c :
  fs !! original_path = Some s ->
  fs !! cache = Some c ->
  (Auto2to3.st_mtime s < Auto2to3.st_mtime c)%Q ->
  get_data now fs original_path = Some (Auto2to3.contents c, fs).
Proof.
  intros Hs Hc Hlt. unfold get_data, Loader.get_data.
  rewrite String.eqb_refl.
  unfold Auto2to3._load_cached_2to3, Auto2to3.os_stat, Auto2to3.get_data.
  fold cache. unfold Auto2to3.filesystem in *. rewrite Hc, Hs.
  destruct (Qle_bool (Auto2to3.st_mtime c) (Auto2to3.st_mtime s)) eqn:Hle.
  - apply Qle_bool_iff in Hle. by apply Qlt_not_le in Hlt.
  - done.
Qed.

(** With the cache file missing or not newer than the source, [get_data]
    returns the refactored source and writes it to the cache file; written
    later than the source was, this cache file is what every further call
    returns, without writing again. *)
Theorem get_data_refactors_once now fs s :
  fs !! original_path = Some s ->
  (fs !! cache = None \/
   exists c, fs !! cache = Some c /\
             (Auto2to3.st_mtime c <= Auto2to3.st_mtime s)%Q) ->
  (Auto2to3.st_mtime s < now)%Q ->
  exists fs',
    get_data now fs original_path = Some (refactored s, fs') /\
    fs' !! cache = Some (Auto2to3.mkFile now (refactored s)) /\
    forall now', get_data now' fs' original_path = Some (refactored s, fs').
Proof.
  intros Hs Hstale Hnow.
  assert (get_data now fs original_path
          = Some (refactored s,
                  Loader.set_data now fs cache (refactored s))) as Hfirst.
  { unfold get_data, Loader.get_data. rewrite String.eqb_refl.
    assert ((Auto2to3._load_cached_2to3 fs original_path
               (Loader._2to3_cache_path original_path)).1 = None) as ->.
    { unfold Auto2to3._load_cached_2to3, Auto2to3.os_stat. fold cache.
      unfold Auto2to3.filesystem in *.
      destruct Hstale as [-> | (c & -> & Hle)]; [done|]. rewrite Hs.
      apply Qle_bool_iff in Hle. by rewrite Hle. }
    unfold Loader._refactor_2to3, refactored.
    unfold Auto2to3.filesystem in *. rewrite Hs.
    by destruct (read_python_source (Auto2to3.contents s)). }
  eexists. split; [exact Hfirst|].
  assert (Loader.set_data now fs cache (refactored s) !! cache
          = Some (Auto2to3.mkFile now (refactored s))) as Hc
    by apply (lookup_insert_eq (M := gmap string)).
  split; [exact Hc|]. intros now'.
  apply (get_data_serves_fresh_cache now' _ s
           (Auto2to3.mkFile now (refactored s))); [|exact Hc|done].
  unfold Loader.set_data, Auto2to3.filesystem.
  rewrite lookup_insert_ne; [done|].
  apply cache_path_neq.
Qed.

End GetData.

Lemma get_data_writes_only_cache_witness :
  exists data fs',
    Loader.get_data Loader.sample_read Loader.sample_refactor
      Loader.sample_encode "/repo/IPython/b.py" 9 Auto2to3.sample_fs
      "/repo/IPython/b.py" = Some (data, fs') /\
    fs' !! "/repo/IPython/b.py" = Auto2to3.sample_fs !! "/repo/IPython/b.py".
Proof.
  destruct (Loader.get_data Loader.sample_read Loader.sample_refactor
              Loader.sample_encode "/repo/IPython/b.py" 9 Auto2to3.sample_fs
              "/repo/IPython/b.py") as [[data fs']|] eqn:Hget;
    [|by vm_compute in Hget].
  exists data, fs'. split; [done|].
  by destruct (get_data_writes_only_cache _ _ _ _ _ _ _ _ _ Hget).
Defined.

Lemma get_data_needs_source_witness :
  Loader.get_data Loader.sample_read Loader.sample_refactor
    Loader.sample_encode "/repo/IPython/c.py" 9
    (<["/repo/IPython/__pycache__/c.ipy2to3.py" :=
         Auto2to3.mkFile 5 [Byte.x63]]> Auto2to3.sample_fs)
    "/repo/IPython/c.py" = None.
Proof.
  apply get_data_needs_source. vm_compute. reflexivity.
Defined.

Lemma get_data_refactors_once_witness :
  exists data fs',
    Loader.get_data Loader.sample_read Loader.sample_refactor
      Loader.sample_encode "/repo/IPython/b.py" 9 Auto2to3.sample_fs
      "/repo/IPython/b.py" = Some (data, fs') /\
    forall now',
      Loader.get_data Loader.sample_read Loader.sample_refactor
        Loader.sample_encode "/repo/IPython/b.py" now' fs'
        "/repo/IPython/b.py" = Some (data, fs').
Proof.
  destruct (get_data_refactors_once Loader.sample_read
              Loader.sample_refactor Loader.sample_encode
              "/repo/IPython/b.py" 9 Auto2to3.sample_fs
              (Auto2to3.mkFile 7 [Byte.x42; Byte.x0a]))
    as (fs' & Hfirst & _ & Hnext).
  - vm_compute. reflexivity.
  - right. exists (Auto2to3.mkFile 7 [Byte.x62; Byte.x0a]).
    split; [vm_compute; reflexivity | vm_compute; discriminate].
  - vm_compute. reflexivity.
  - eauto.
Defined.

(** ** The predicate of the path hook *)

Lemma prefix_iff p s : String.prefix p s = true <-> exists r, s = p +:+ r.
Proof.
  revert s. induction p as [|c p IH]; intros s.
  - destruct s; cbn; split; eauto.
  - destruct s as [|c' s]; cbn.
    + split; [done | by intros [r ?]].
    + destruct (ascii_dec c c') as [<-|Hne].
      * rewrite IH. split; intros [r Hr]; exists r.
        -- by rewrite app_cons, Hr.
        -- rewrite app_cons in Hr. by injection Hr.
      * split; [done|]. intros [r Hr]. rewrite app_cons in Hr.
        injection Hr as -> _. done.
Qed.


(** A directory beside this one whose name merely starts with this one's
    ([/repo-old] beside [/repo]) is not accepted. *)
Theorem predicate_rejects_sibling (abspath : string -> string)
    (this_dir path suffix : string) :
  abspath path = this_dir +:+ suffix ->
  suffix <> "" ->
  Loader.startswith_sep suffix = false ->
  Loader.predicate abspath this_dir path = false.
Proof.
  intros Habs Hne Hsep. apply not_true_is_false.
  unfold Loader.predicate, Auto2to3.predicate.
  rewrite orb_true_iff, String.eqb_eq, prefix_iff, Habs.
  intros [Heq | [rest Heq]].
  - rewrite <- (app_nil_r this_dir) in Heq at 2.
    by apply (inj (String.append this_dir)) in Heq.
  - rewrite app_assoc in Heq.
    apply (inj (String.append this_dir)) in Heq. by subst suffix.
Qed.

Lemma predicate_rejects_sibling_witness :
  Loader.predicate (fun path => path) "/repo" "/repo-old/IPython" = false.
Proof.
  apply (predicate_rejects_sibling (fun path => path) "/repo"
           "/repo-old/IPython" "-old/IPython"); [reflexivity | done | reflexivity].
Defined.

